(** * The cluster-directory lifecycle of the exporter

    A shallow embedding of [internal/exporter/exporter.go]: the resolver
    [FetchClusters], the generation builder [SetupClusters] and the part of
    [Init] that owns the registry ([ClustersMap]) and its refresh loop.

    Go values are modelled as follows.
    - [interface{}] values produced by [encoding/json] are the type [json];
      the nil interface is [JNull].
    - [map[string]T] is [gmap string T]; indexing a missing key yields the
      zero value of [T].
    - A function returning [(T, error)] returns [res T].
    - A run-time panic (a failed single-value type assertion) is the
      outcome [Panic]; [log.Fatalf], which logs and exits the process, is the
      outcome [Fatal].
    - Logging and the requests sent to Prism Central are recorded in a
      [World] that is threaded through the code.
    - JSON numbers are kept as integers; the code never looks into one.

    The packages [auth], [nutanix] and [prom] are collaborators: the API
    client is a function from requests to answers, and handle and collector
    construction are parameters ([Collaborators]). *)

From stdpp Require Import gmap strings list fin_maps.
From Stdlib Require Import ZArith.

Set Warnings "-register-all".

(** ** Dynamic JSON values *)

Inductive json : Type :=
  | JNull
  | JBool (b : bool)
  | JNumber (n : Z)
  | JString (s : string)
  | JArray (l : list json)
  | JObject (m : gmap string json).

(** [m[k]] on a [map[string]interface{}]: nil when the key is absent. *)
Definition index (m : gmap string json) (k : string) : json :=
  default JNull (m !! k).

(** The comma-ok type assertions [v, ok := x.(T)]: [None] is [ok = false]. *)
Definition as_map (x : json) : option (gmap string json) :=
  match x with JObject m => Some m | _ => None end.

Definition as_slice (x : json) : option (list json) :=
  match x with JArray l => Some l | _ => None end.

Definition as_string (x : json) : option string :=
  match x with JString s => Some s | _ => None end.

(** [x == nil] on an interface value. *)
Definition is_nil (x : json) : bool :=
  match x with JNull => true | _ => false end.

(** ** Results, panics and the world *)

Inductive res (A : Type) : Type :=
  | Ok (a : A)
  | Err (e : string).
Arguments Ok {A} a.
Arguments Err {A} e.

Inductive Outcome (A : Type) : Type :=
  | Done (a : A)
  | Panic
  | Fatal.
Arguments Done {A} a.
Arguments Panic {A}.
Arguments Fatal {A}.

#[global] Instance Outcome_ret : MRet Outcome := λ A a, Done a.
#[global] Instance Outcome_bind : MBind Outcome := λ A B k m,
  match m with Done a => k a | Panic => Panic | Fatal => Fatal end.

(** The single-value type assertion [x.(map[string]interface{})] panics when
    the dynamic type differs (in particular on nil). *)
Definition must_map (x : json) : Outcome (gmap string json) :=
  match as_map x with Some m => Done m | None => Panic end.

Record Request : Type := mkRequest {
  req_method : string;
  req_path : string;
  req_payload : option (gmap string json)
}.

(** The body of an HTTP response, as [json.Decoder] sees it: either text that
    is not a JSON document, or a document. *)
Inductive Body : Type :=
  | Malformed (e : string)
  | Document (v : json).

Record World : Type := mkWorld {
  requests : list Request;
  logs : list string
}.

Definition M (A : Type) : Type := World → Outcome A * World.

#[global] Instance M_ret : MRet M := λ A a w, (Done a, w).
#[global] Instance M_bind : MBind M := λ A B k m w,
  match m w with
  | (Done a, w') => k a w'
  | (Panic, w') => (Panic, w')
  | (Fatal, w') => (Fatal, w')
  end.

Definition lift {A} (o : Outcome A) : M A := λ w, (o, w).

(** [log.Printf]: the formatted message is appended to the log. *)
Definition log_Printf (msg : string) : M unit := λ w,
  (Done (), mkWorld (requests w) (logs w ++ [msg])).

(** [log.Fatalf]: the message is logged and the process exits. *)
Definition log_Fatalf {A} (msg : string) : M A := λ w,
  (Fatal, mkWorld (requests w) (logs w ++ [msg])).

(** [json.NewDecoder(resp.Body).Decode(&result)] with
    [result : map[string]interface{}]: an object fills the map, [null] leaves
    it nil (which reads like the empty map), any other document is an
    unmarshal type error. *)
Definition Decode (b : Body) : res (gmap string json) :=
  match b with
  | Malformed e => Err e
  | Document (JObject m) => Ok m
  | Document JNull => Ok ∅
  | Document _ =>
      Err "json: cannot unmarshal into Go value of type map[string]interface {}"
  end.

(** ** The resolver *)

(** A [for ... range] loop whose body either [continue]s ([None]) or appends
    one element to the slice being built. *)
Fixpoint range_append {A B} (body : A → Outcome (option B)) (l : list A)
    (acc : list B) : Outcome (list B) :=
  match l with
  | [] => Done acc
  | x :: l' =>
      o ← body x;
      match o with
      | None => range_append body l' acc
      | Some b => range_append body l' (acc ++ [b])
      end
  end.

Definition cluster_record (name ip : string) : gmap string string :=
  <["ip" := ip]> (<["name" := name]> ∅).

(** Body of the loop of [parseV4Clusters]. *)
Definition parseV4_entry (cluster : json) : Outcome (option (gmap string string)) :=
  clusterMap ← must_map cluster;
  match as_string (index clusterMap "name") with
  | None => Done None
  | Some name =>
      if String.eqb name "Unnamed" then Done None else
      network0 ← must_map (index clusterMap "network");
      match as_map (index network0 "externalAddress") with
      | None => Done None
      | Some network =>
          if is_nil (index network "ipv4") then Done None else
          ipv4 ← must_map (index network "ipv4");
          match as_string (index ipv4 "value") with
          | None => Done None
          | Some ip => Done (Some (cluster_record name ip))
          end
      end
  end.

Definition parseV4Clusters (result : gmap string json)
    : Outcome (res (list (gmap string string))) :=
  match as_slice (index result "data") with
  | None => Done (Err "unexpected response format for v4")
  | Some data =>
      clusters ← range_append parseV4_entry data [];
      Done (Ok clusters)
  end.

Definition parseV4b1Clusters := parseV4Clusters.

(** Body of the loop of [parseV3Clusters]. *)
Definition parseV3_entry (entity : json) : Outcome (option (gmap string string)) :=
  cluster ← must_map entity;
  match as_map (index cluster "spec"), as_map (index cluster "status") with
  | Some spec, Some status =>
      match as_string (index spec "name") with
      | None => Done None
      | Some name =>
          if String.eqb name "Unnamed" then Done None else
          resources ← must_map (index status "resources");
          match as_map (index resources "network") with
          | None => Done None
          | Some network =>
              match as_string (index network "external_ip") with
              | None => Done None
              | Some ip => Done (Some (cluster_record name ip))
              end
          end
      end
  | _, _ => Done None
  end.

Definition parseV3Clusters (result : gmap string json)
    : Outcome (res (list (gmap string string))) :=
  match as_slice (index result "entities") with
  | None => Done (Err "unexpected response format for v3")
  | Some entities =>
      clusters ← range_append parseV3_entry entities [];
      Done (Ok clusters)
  end.

(** The API client of a cluster handle ([prismClient.API]).  Its
    implementation lives in the [nutanix] package; here it is the function
    that answers the [n]-th request of the process: a transport error or a
    response body. *)
Definition Client : Type := nat → Request → res Body.

Definition MakeRequestWithParams (api : Client) (method path : string)
    (payload : option (gmap string json)) : M (res Body) := λ w,
  let req := mkRequest method path payload in
  (Done (api (length (requests w)) req),
   mkWorld (requests w ++ [req]) (logs w)).

Definition MakeRequest (api : Client) (method path : string) : M (res Body) :=
  MakeRequestWithParams api method path None.

Definition v3_payload : gmap string json :=
  <["kind" := JString "cluster"]>
    (<["length" := JNumber 100]> (<["offset" := JNumber 0]> ∅)).

Definition endpoint (ip : string) : string := "https://" +:+ ip +:+ ":9440".

Section resolver.
(** The package-level variable [ClusterPrefix]. *)
Variable ClusterPrefix : string.

(** The last loop of [FetchClusters], which fills [clusterData]. *)
Fixpoint build_clusterData (clusters : list (gmap string string))
    (clusterData : gmap string string) : M (gmap string string) :=
  match clusters with
  | [] => mret clusterData
  | cluster :: rest =>
      let name := default "" (cluster !! "name") in
      let ip := default "" (cluster !! "ip") in
      if negb (String.eqb ClusterPrefix "")
         && negb (String.prefix ClusterPrefix name)
      then
        log_Printf ("Skipping cluster " +:+ name);;
        build_clusterData rest clusterData
      else
        let clusterData := <[name := endpoint ip]> clusterData in
        log_Printf ("Found cluster " +:+ name +:+ " at "
                    +:+ default "" (clusterData !! name));;
        build_clusterData rest clusterData
  end.

Definition FetchClusters (prismClient : Client) (version : string)
    : M (res (gmap string string)) :=
  let clusterData : gmap string string := ∅ in
  let makeV4b1Request :=
    MakeRequest prismClient "GET" "/api/clustermgmt/v4.0.b1/config/clusters" in
  let makeV4Request :=
    MakeRequest prismClient "GET" "/api/clustermgmt/v4.0/config/clusters" in
  let makeV3Request :=
    MakeRequestWithParams prismClient "POST" "/api/nutanix/v3/clusters/list"
      (Some v3_payload) in
  '(resp, parseClusters) ←
    (if String.eqb version "v3" then
       resp ← makeV3Request; mret (resp, parseV3Clusters)
     else if String.eqb version "v4b1" then
       resp ← makeV4b1Request; mret (resp, parseV4b1Clusters)
     else
       resp ← makeV4Request; mret (resp, parseV4Clusters));
  match resp with
  | Err err => mret (Err err)
  | Ok body =>
      match Decode body with
      | Err err => mret (Err err)
      | Ok result =>
          parsed ← lift (parseClusters result);
          match parsed with
          | Err err => mret (Err err)
          | Ok clusters =>
              clusterData ← build_clusterData clusters clusterData;
              mret (Ok clusterData)
          end
      end
  end.
End resolver.

(** ** Cluster handles and generations *)

(** Modelled from the spec: the [nutanix.Cluster] struct, whose declaration
    is in the [nutanix] package.  A handle has a name, an API client bound
    to its endpoint, an isolated metrics registry (the collectors
    registered so far) and its collector set. *)
Record Cluster (Collector : Type) : Type := mkCluster {
  Name : string;
  URL : string;
  API : Client;
  Registry : list Collector;
  Collectors : list Collector
}.
Arguments mkCluster {Collector} _ _ _ _ _.
Arguments Name {Collector} _.
Arguments URL {Collector} _.
Arguments API {Collector} _.
Arguments Registry {Collector} _.
Arguments Collectors {Collector} _.

(** What [SetupClusters] consumes from the [auth], [nutanix] and [prom]
    packages and from the Go runtime. *)
Class Collaborators : Type := {
  VaultClient : Type;
  Collector : Type;
  (** [nutanix.NewCluster]; [None] is the nil handle. *)
  NewCluster :
    string → string → VaultClient → bool → bool → Z → option (Cluster Collector);
  NewStorageContainerCollector : Cluster Collector → string → Collector;
  NewClusterCollector : Cluster Collector → string → Collector;
  NewHostCollector : Cluster Collector → string → Collector;
  NewVMCollector : Cluster Collector → string → Collector;
  (** The order in which [range] visits a map is unspecified in Go: any
      enumeration of the entries. *)
  range_order : gmap string string → list (string * string);
  range_order_perm : ∀ m, range_order m ≡ₚ map_to_list m
}.

Section registry.
Context `{Collaborators}.

(** The package-level variable [ClusterPrefix]. *)
Variable ClusterPrefix : string.

(** [cluster.Registry.MustRegister(collector)] on the handle's own
    registry; registering the four collectors of a handle on its fresh
    registry is taken to succeed. *)
Definition MustRegister (cluster : Cluster Collector) (collector : Collector)
    : Cluster Collector :=
  mkCluster (Name cluster) (URL cluster) (API cluster)
    (Registry cluster ++ [collector]) (Collectors cluster).

Definition set_Collectors (cluster : Cluster Collector)
    (collectors : list Collector) : Cluster Collector :=
  mkCluster (Name cluster) (URL cluster) (API cluster) (Registry cluster)
    collectors.

Definition ten_seconds : Z := 10 * 1000000000.

(** The part of the loop body of [SetupClusters] after a handle has been
    obtained. *)
Definition with_collectors (cluster : Cluster Collector) : Cluster Collector :=
  let collectors :=
    [ NewStorageContainerCollector cluster "configs/storage_container.yaml";
      NewClusterCollector cluster "configs/cluster.yaml";
      NewHostCollector cluster "configs/host.yaml";
      NewVMCollector cluster "configs/vm.yaml" ] in
  set_Collectors (foldl MustRegister cluster collectors) collectors.

Fixpoint setup_loop (vaultClient : VaultClient)
    (entries : list (string * string))
    (clustersMap : gmap string (Cluster Collector))
    : M (gmap string (Cluster Collector)) :=
  match entries with
  | [] => mret clustersMap
  | (name, url) :: rest =>
      match NewCluster name url vaultClient false true ten_seconds with
      | None =>
          log_Printf ("Failed to initialize cluster " +:+ name);;
          setup_loop vaultClient rest clustersMap
      | Some cluster =>
          log_Printf ("Registering collectors for cluster " +:+ name);;
          setup_loop vaultClient rest
            (<[name := with_collectors cluster]> clustersMap)
      end
  end.

Definition SetupClusters (prismClient : Cluster Collector)
    (vaultClient : VaultClient) (PCApiVersion : string)
    : M (res (gmap string (Cluster Collector))) :=
  fetched ← FetchClusters ClusterPrefix (API prismClient) PCApiVersion;
  match fetched with
  | Err err => mret (Err err)
  | Ok clusterData =>
      clustersMap ← setup_loop vaultClient (range_order clusterData) ∅;
      mret (Ok clustersMap)
  end.

(** ** The registry and its refresh loop in [Init] *)

(** [PCApiVersion] as [Init] computes it from the environment. *)
Definition startup_version (env : string → string) : string :=
  let PCApiVersion := env "PC_API_VERSION" in
  if String.eqb PCApiVersion "" then "v4" else PCApiVersion.

(** One iteration of the body of the refresh goroutine.  The argument is
    the value of the package variable [ClustersMap] before the tick, the
    result its value after the tick. *)
Definition refresh_iteration (PCCluster : Cluster Collector)
    (vaultClient : VaultClient) (PCApiVersion : string)
    (ClustersMap : gmap string (Cluster Collector))
    : M (gmap string (Cluster Collector)) :=
  log_Printf "Refreshing cluster list...";;
  r ← SetupClusters PCCluster vaultClient PCApiVersion;
  match r with
  | Err err =>
      log_Printf ("Cluster refresh failed: " +:+ err);;
      mret ClustersMap
  | Ok newMap =>
      log_Printf "Cluster list refreshed";;
      mret newMap
  end.

(** The first [ticks] iterations of [for range ticker.C]. *)
Fixpoint refresh_loop (ticks : nat) (PCCluster : Cluster Collector)
    (vaultClient : VaultClient) (PCApiVersion : string)
    (ClustersMap : gmap string (Cluster Collector))
    : M (gmap string (Cluster Collector)) :=
  match ticks with
  | O => mret ClustersMap
  | S ticks' =>
      ClustersMap ← refresh_iteration PCCluster vaultClient PCApiVersion
                      ClustersMap;
      refresh_loop ticks' PCCluster vaultClient PCApiVersion ClustersMap
  end.

(** [Init] from the point where the Vault client and the Prism Central
    handle exist: the initial build, which is fatal on failure, followed
    by [ticks] ticks of the refresh goroutine ([ticks = 0] when the refresh
    interval disables it).  [ClusterPrefix] is the value [Init] has assigned
    to the package variable from [CLUSTER_PREFIX]. *)
Definition Init_directory (env : string → string)
    (PCCluster : Cluster Collector) (vaultClient : VaultClient) (ticks : nat)
    : M (gmap string (Cluster Collector)) :=
  let PCApiVersion := startup_version env in
  log_Printf "Initializing clusters";;
  r ← SetupClusters PCCluster vaultClient PCApiVersion;
  match r with
  | Err err => log_Fatalf ("Failed to initialize clusters: " +:+ err)
  | Ok clusterMap =>
      refresh_loop ticks PCCluster vaultClient PCApiVersion clusterMap
  end.

(** [strings.TrimPrefix]. *)
Definition TrimPrefix (s p : string) : string :=
  if String.prefix p s
  then String.substring (String.length p) (String.length s - String.length p) s
  else s.

(** The lookup of the [/metrics/] handler: [None] is the 404 answer. *)
Definition metrics_lookup (ClustersMap : gmap string (Cluster Collector))
    (path : string) : option (Cluster Collector) :=
  let name := TrimPrefix path "/metrics/" in
  ClustersMap !! name.
End registry.

(** ** The three response schemas, as the specification words them *)

(** Following a path of field names into a document. *)
Fixpoint json_path (path : list string) (v : json) : option json :=
  match path with
  | [] => Some v
  | k :: path' =>
      match v with
      | JObject m => m !! k ≫= json_path path'
      | _ => None
      end
  end.

Record Schema : Type := mkSchema {
  list_field : string;
  name_path : list string;
  ip_path : list string
}.

(** [entities[].spec.name] and
    [entities[].status.resources.network.external_ip]. *)
Definition schema_v3 : Schema :=
  mkSchema "entities" ["spec"; "name"]
    ["status"; "resources"; "network"; "external_ip"].

(** [data[].name] and [data[].network.externalAddress.ipv4.value]. *)
Definition schema_v4 : Schema :=
  mkSchema "data" ["name"]
    ["network"; "externalAddress"; "ipv4"; "value"].

(** The schema a selector stands for; the beta schema has the shape of v4. *)
Definition schema_of (version : string) : Schema :=
  if String.eqb version "v3" then schema_v3 else schema_v4.

Definition entry_name (s : Schema) (e : json) : option string :=
  json_path (name_path s) e ≫= as_string.

Definition entry_ip (s : Schema) (e : json) : option string :=
  json_path (ip_path s) e ≫= as_string.

Definition passes_prefix (prefix name : string) : bool :=
  String.eqb prefix "" || String.prefix prefix name.

(** An entry that has a name other than the sentinel and an IPv4 string. *)
Definition named_entry (s : Schema) (e : json) : option (string * string) :=
  name ← entry_name s e;
  ip ← entry_ip s e;
  if String.eqb name "Unnamed" then None else Some (name, ip).

(** A surviving entry, with the endpoint synthesised for it. *)
Definition survives (s : Schema) (prefix : string) (e : json)
    : option (string * string) :=
  '(name, ip) ← named_entry s e;
  if passes_prefix prefix name then Some (name, endpoint ip) else None.

Definition survivors (s : Schema) (prefix : string) (entries : list json)
    : list (string * string) :=
  omap (survives s prefix) entries.

(** The endpoint of the last pair with the given name. *)
Definition last_endpoint (name : string) (l : list (string * string))
    : option string :=
  snd <$> last (filter (λ p, p.1 = name) l).

(** Shape conditions under which an entry is read without a failing type
    assertion.  v4: the entry is an object, its [network] is an object, and
    [network.externalAddress.ipv4], when [externalAddress] is an object, is
    absent, null or an object. *)
Definition wf_entry_v4 (e : json) : bool :=
  match e with
  | JObject m =>
      match index m "network" with
      | JObject n0 =>
          match index n0 "externalAddress" with
          | JObject n =>
              match index n "ipv4" with
              | JNull | JObject _ => true
              | _ => false
              end
          | _ => true
          end
      | _ => false
      end
  | _ => false
  end.

(** v3: the entity is an object and, when both [spec] and [status] are
    objects, [status.resources] is an object. *)
Definition wf_entry_v3 (e : json) : bool :=
  match e with
  | JObject m =>
      match index m "spec", index m "status" with
      | JObject _, JObject st =>
          match index st "resources" with
          | JObject _ => true
          | _ => false
          end
      | _, _ => true
      end
  | _ => false
  end.

Definition wf_entry (version : string) : json → bool :=
  if String.eqb version "v3" then wf_entry_v3 else wf_entry_v4.

(** The request [FetchClusters] sends for a selector. *)
Definition dispatched_request (version : string) : Request :=
  if String.eqb version "v3" then
    mkRequest "POST" "/api/nutanix/v3/clusters/list" (Some v3_payload)
  else if String.eqb version "v4b1" then
    mkRequest "GET" "/api/clustermgmt/v4.0.b1/config/clusters" None
  else
    mkRequest "GET" "/api/clustermgmt/v4.0/config/clusters" None.

(** The fault, if any, that the answer to the request shows before any entry
    is looked at: a transport error, a decode error, or a list field that is
    not an array. *)
Definition top_level_fault (version : string) (answer : res Body)
    : option string :=
  match answer with
  | Err e => Some e
  | Ok body =>
      match Decode body with
      | Err e => Some e
      | Ok result =>
          match as_slice (index result (list_field (schema_of version))) with
          | Some _ => None
          | None =>
              Some (if String.eqb version "v3"
                    then "unexpected response format for v3"
                    else "unexpected response format for v4")
          end
      end
  end.

(** A Prism Central that honours the v3 list contract: it answers a list
    query with the page of its fleet that [offset] and [length] select. *)
Definition v3_list_server (fleet : list json) : Client := λ _ req,
  match req_payload req with
  | Some payload =>
      match index payload "length", index payload "offset" with
      | JNumber len, JNumber off =>
          Ok (Document (JObject
                {[ "entities" :=
                     JArray (take (Z.to_nat len) (drop (Z.to_nat off) fleet)) ]}))
      | _, _ => Err "invalid list query"
      end
  | None => Err "invalid list query"
  end.

(** ** The registry under concurrent access

    One tick of the refresh goroutine running against any number of
    [/metrics/] requests, as an interleaving of the atomic steps of the
    code.  Maps are objects on a heap: [make] allocates one, an indexed
    assignment mutates it in place, and the package variable [ClustersMap]
    holds a reference. *)

Section concurrent.
(** The cluster handles ([*nutanix.Cluster]). *)
Variable Handle : Type.

Definition loc : Type := nat.

(** [sync.RWMutex]. *)
Record RWMutex : Type := mkRWMutex {
  write_locked : bool;
  read_locks : nat
}.

(** Program points of the refresh goroutine within one tick. *)
Inductive writer_pc : Type :=
  | WTick
    (** at [for range ticker.C], about to call [SetupClusters] *)
  | WBuild (l : loc) (todo : list (string * Handle))
    (** in the loop of [SetupClusters]: [clustersMap] is the map at [l],
        [todo] are the handles still to be stored *)
  | WReturned (l : loc)
    (** [newMap] returned, before [clustersMu.Lock()] *)
  | WLocked (l : loc)
    (** after [Lock], before the assignment *)
  | WAssigned
    (** after [ClustersMap = newMap], before [Unlock] *)
  | WDone.
    (** the tick is over *)

(** Program points of one [/metrics/] request.  [seen] is the content of
    the map that the lookup indexed. *)
Inductive reader_pc : Type :=
  | RStart (name : string)
  | RLocked (name : string)
  | RRead (name : string) (seen : gmap string Handle)
  | RDone (name : string) (seen : gmap string Handle).

Record state : Type := mkState {
  heap : gmap loc (gmap string Handle);
  ClustersMap : loc;
  clustersMu : RWMutex;
  writer : writer_pc;
  readers : list reader_pc
}.

(** The map that [SetupClusters] returns after storing the given handles
    in order. *)
Definition complete (handles : list (string * Handle)) : gmap string Handle :=
  foldl (λ m p, <[p.1 := p.2]> m) ∅ handles.

(** What [SetupClusters] does on this tick: [None] when it returns an
    error, otherwise the handles it stores, in order. *)
Variable build : option (list (string * Handle)).

Inductive step : state → state → Prop :=
  | step_refresh_failed s :
      writer s = WTick → build = None →
      step s (mkState (heap s) (ClustersMap s) (clustersMu s) WDone (readers s))
  | step_make s l todo :
      writer s = WTick → build = Some todo → heap s !! l = None →
      step s (mkState (<[l := ∅]> (heap s)) (ClustersMap s) (clustersMu s)
                (WBuild l todo) (readers s))
  | step_store s l name cluster todo g :
      writer s = WBuild l ((name, cluster) :: todo) → heap s !! l = Some g →
      step s (mkState (<[l := <[name := cluster]> g]> (heap s)) (ClustersMap s)
                (clustersMu s) (WBuild l todo) (readers s))
  | step_return s l :
      writer s = WBuild l [] →
      step s (mkState (heap s) (ClustersMap s) (clustersMu s) (WReturned l)
                (readers s))
  | step_Lock s l :
      writer s = WReturned l →
      write_locked (clustersMu s) = false → read_locks (clustersMu s) = 0 →
      step s (mkState (heap s) (ClustersMap s) (mkRWMutex true 0) (WLocked l)
                (readers s))
  | step_assign s l :
      writer s = WLocked l →
      step s (mkState (heap s) l (clustersMu s) WAssigned (readers s))
  | step_Unlock s :
      writer s = WAssigned →
      step s (mkState (heap s) (ClustersMap s)
                (mkRWMutex false (read_locks (clustersMu s))) WDone (readers s))
  | step_request s name :
      step s (mkState (heap s) (ClustersMap s) (clustersMu s) (writer s)
                (readers s ++ [RStart name]))
  | step_RLock s i name :
      readers s !! i = Some (RStart name) →
      write_locked (clustersMu s) = false →
      step s (mkState (heap s) (ClustersMap s)
                (mkRWMutex false (S (read_locks (clustersMu s)))) (writer s)
                (<[i := RLocked name]> (readers s)))
  | step_lookup s i name g :
      readers s !! i = Some (RLocked name) →
      heap s !! ClustersMap s = Some g →
      step s (mkState (heap s) (ClustersMap s) (clustersMu s) (writer s)
                (<[i := RRead name g]> (readers s)))
  | step_RUnlock s i name g :
      readers s !! i = Some (RRead name g) →
      step s (mkState (heap s) (ClustersMap s)
                (mkRWMutex (write_locked (clustersMu s))
                   (pred (read_locks (clustersMu s))))
                (writer s) (<[i := RDone name g]> (readers s))).

(** The process after the initial build: the registry refers to the old
    generation, nobody holds the lock. *)
Definition initial (l0 : loc) (old : gmap string Handle) : state :=
  mkState {[ l0 := old ]} l0 (mkRWMutex false 0) WTick [].

(** What a request has observed, once its lookup is done. *)
Definition observed (r : reader_pc) : option (gmap string Handle) :=
  match r with
  | RRead _ seen | RDone _ seen => Some seen
  | _ => None
  end.

(** The answer of a request: the handle it serves, or [None] for 404. *)
Definition answer (r : reader_pc) : option (option Handle) :=
  match r with
  | RRead name seen | RDone name seen => Some (seen !! name)
  | _ => None
  end.

Definition holds_read_lock (r : reader_pc) : bool :=
  match r with
  | RLocked _ | RRead _ _ => true
  | _ => false
  end.

Definition holds_write_lock (pc : writer_pc) : bool :=
  match pc with
  | WLocked _ | WAssigned => true
  | _ => false
  end.
End concurrent.

Arguments WTick {Handle}.
Arguments WBuild {Handle} l todo.
Arguments WReturned {Handle} l.
Arguments WLocked {Handle} l.
Arguments WAssigned {Handle}.
Arguments WDone {Handle}.
Arguments RStart {Handle} name.
Arguments RLocked {Handle} name.
Arguments RRead {Handle} name seen.
Arguments RDone {Handle} name seen.
Arguments mkState {Handle} heap ClustersMap clustersMu writer readers.
Arguments heap {Handle} s.
Arguments ClustersMap {Handle} s.
Arguments clustersMu {Handle} s.
Arguments writer {Handle} s.
Arguments readers {Handle} s.
Arguments step {Handle} build _ _.
Arguments initial {Handle} l0 old.
Arguments observed {Handle} r.
Arguments answer {Handle} r.
Arguments holds_read_lock {Handle} r.
Arguments holds_write_lock {Handle} pc.
Arguments complete {Handle} handles.

Section generations.
Context {Handle : Type}.
Variable build : option (list (string * Handle)).
Variable old : gmap string Handle.

(** A whole generation: the one served before the tick, or the one the
    tick builds, with every handle stored. *)
Definition whole_generation (g : gmap string Handle) : Prop :=
  g = old ∨ ∃ handles, build = Some handles ∧ g = complete handles.

Definition lock_weight (r : reader_pc Handle) : nat :=
  if holds_read_lock r then 1 else 0.

(** The number of requests that hold the read lock. *)
Definition read_holders (rs : list (reader_pc Handle)) : nat :=
  length (filter (λ r, holds_read_lock r = true) rs).

(** What holds of every state the interleaving reaches. *)
Definition registry_inv (s : state Handle) : Prop :=
  Forall (λ r, ∀ g, observed r = Some g → whole_generation g) (readers s) ∧
  write_locked (clustersMu s) = holds_write_lock (writer s) ∧
  read_locks (clustersMu s) = read_holders (readers s) ∧
  (holds_write_lock (writer s) = true → read_holders (readers s) = 0) ∧
  match writer s with
  | WTick => heap s !! ClustersMap s = Some old
  | WBuild l todo =>
      heap s !! ClustersMap s = Some old ∧ l ≠ ClustersMap s ∧
      ∃ stored, build = Some (stored ++ todo)
                ∧ heap s !! l = Some (complete stored)
  | WReturned l | WLocked l =>
      heap s !! ClustersMap s = Some old ∧
      ∃ handles, build = Some handles ∧ heap s !! l = Some (complete handles)
  | WAssigned =>
      ∃ handles, build = Some handles
                 ∧ heap s !! ClustersMap s = Some (complete handles)
  | WDone =>
      ∃ g, heap s !! ClustersMap s = Some g ∧ whole_generation g
  end.
End generations.

(** The parser that [FetchClusters] selects. *)
Definition selected_parser (version : string)
    : gmap string json → Outcome (res (list (gmap string string))) :=
  if String.eqb version "v3" then parseV3Clusters
  else if String.eqb version "v4b1" then parseV4b1Clusters
  else parseV4Clusters.

(** The world after a request has been sent. *)
Definition sent (req : Request) (w : World) : World :=
  mkWorld (requests w ++ [req]) (logs w).

(** The world after messages have been logged. *)
Definition logged (msgs : list string) (w : World) : World :=
  mkWorld (requests w) (logs w ++ msgs).

(** The line that the last loop of [FetchClusters] logs for a parsed
    entry. *)
Definition log_line (prefix : string) (p : string * string) : string :=
  if passes_prefix prefix p.1
  then "Found cluster " +:+ p.1 +:+ " at " +:+ endpoint p.2
  else "Skipping cluster " +:+ p.1.

Definition keep (prefix : string) (p : string * string)
    : option (string * string) :=
  if passes_prefix prefix p.1 then Some (p.1, endpoint p.2) else None.

(** ** Sample responses *)

Definition obj (fields : list (string * json)) : json :=
  JObject (list_to_map fields).

Definition v4_cluster (name ip : string) : json :=
  obj [ ("name", JString name);
        ("network",
         obj [ ("externalAddress",
                obj [ ("ipv4", obj [ ("value", JString ip) ]) ]) ]) ].

Definition v3_cluster (name ip : string) : json :=
  obj [ ("spec", obj [ ("name", JString name) ]);
        ("status",
         obj [ ("resources",
                obj [ ("network", obj [ ("external_ip", JString ip) ]) ]) ]) ].

(** A v4 cluster whose address block carries no IPv4 value. *)
Definition v4_cluster_no_ip (name : string) : json :=
  obj [ ("name", JString name);
        ("network", obj [ ("externalAddress", obj []) ]) ].

Definition v3_cluster_no_ip (name : string) : json :=
  obj [ ("spec", obj [ ("name", JString name) ]);
        ("status", obj [ ("resources", obj [ ("network", obj []) ]) ]) ].

Definition v4_entries : list json :=
  [ v4_cluster "pe-a" "10.0.0.1"; v4_cluster "Unnamed" "10.0.0.2";
    v4_cluster_no_ip "pe-b"; v4_cluster "pe-c" "10.0.0.3" ].

Definition v3_entries : list json :=
  [ v3_cluster "pe-a" "10.0.0.1"; v3_cluster "Unnamed" "10.0.0.2";
    v3_cluster_no_ip "pe-b"; v3_cluster "pe-c" "10.0.0.3" ].

Definition v4_response : gmap string json := {[ "data" := JArray v4_entries ]}.
Definition v3_response : gmap string json := {[ "entities" := JArray v3_entries ]}.

(** A client that answers every request with the same document. *)
Definition always (result : gmap string json) : Client :=
  λ _ _, Ok (Document (JObject result)).

Definition w0 : World := mkWorld [] [].

Definition duplicated_entries : list json :=
  [ v4_cluster "pe-a" "10.0.0.1"; v4_cluster "pe-b" "10.0.0.2";
    v4_cluster "pe-a" "10.0.0.3" ].

Definition large_fleet : list json :=
  replicate 100 (v3_cluster "pe-a" "10.0.0.1") ++ [v3_cluster "pe-late" "10.0.0.9"].

(** The body of the parsing loop that [FetchClusters] selects. *)
Definition selected_entry_parser (version : string)
    : json → Outcome (option (gmap string string)) :=
  if String.eqb version "v3" then parseV3_entry else parseV4_entry.

(** The decoded response with its list of entries replaced. *)
Definition with_entries (version : string) (result : gmap string json)
    (entries : list json) : gmap string json :=
  <[list_field (schema_of version) := JArray entries]> result.

(** A v4 cluster that carries no [network] block at all. *)
Definition v4_cluster_bare (name : string) : json :=
  obj [ ("name", JString name) ].

(** A v3 cluster whose [status] carries no [resources] block. *)
Definition v3_cluster_bare (name : string) : json :=
  obj [ ("spec", obj [ ("name", JString name) ]); ("status", obj []) ].

(** A v4 cluster whose name is a number. *)
Definition v4_cluster_numbered (n : Z) (ip : string) : json :=
  obj [ ("name", JNumber n);
        ("network",
         obj [ ("externalAddress",
                obj [ ("ipv4", obj [ ("value", JString ip) ]) ]) ]) ].

(** ** What one pass of [SetupClusters] stores and logs *)

Section generation.
Context `{Collaborators}.

(** The handle stored for a descriptor, if its construction succeeds. *)
Definition built (vaultClient : VaultClient) (d : string * string)
    : option (string * Cluster Collector) :=
  cluster ← NewCluster d.1 d.2 vaultClient false true ten_seconds;
  Some (d.1, with_collectors cluster).

(** The line logged for a descriptor. *)
Definition setup_line (vaultClient : VaultClient) (d : string * string)
    : string :=
  match NewCluster d.1 d.2 vaultClient false true ten_seconds with
  | None => "Failed to initialize cluster " +:+ d.1
  | Some _ => "Registering collectors for cluster " +:+ d.1
  end.
End generation.

(** ** Sample collaborators *)

(** Collectors are named by their configuration file; the handle of
    ["pe-bad"] cannot be built. *)
Definition sample_collaborators : Collaborators := {|
  VaultClient := unit;
  Collector := string;
  NewCluster := λ name url _ _ _ _,
    if String.eqb name "pe-bad" then None
    else Some (mkCluster name url (always ∅) [] []);
  NewStorageContainerCollector := λ _ config, config;
  NewClusterCollector := λ _ config, config;
  NewHostCollector := λ _ config, config;
  NewVMCollector := λ _ config, config;
  range_order := map_to_list;
  range_order_perm := λ m, Permutation_refl (map_to_list m)
|}.

Definition sample_prism (result : gmap string json) : Cluster string :=
  mkCluster "pc" "https://pc:9440" (always result) [] [].

Definition sample_fleet : gmap string json :=
  {[ "data" := JArray [ v4_cluster "pe-a" "10.0.0.1";
                        v4_cluster "pe-bad" "10.0.0.2";
                        v4_cluster "pe-c" "10.0.0.3" ] ]}.

(** ** A sample interleaving *)

Definition sample_old : gmap string nat := {[ "pe-a" := 1 ]}.
Definition sample_build : option (list (string * nat)) := Some [("pe-b", 2)].

(** A request for ["pe-a"] has looked the name up while the new map was
    under construction, and the refresh goroutine has since assigned the
    new map and still holds the lock. *)
Definition sample_run_end : state nat :=
  mkState (<[1 := <["pe-b" := 2]> ∅]> (<[1 := ∅]> {[ 0 := sample_old ]})) 1
    (mkRWMutex true 0) WAssigned [RDone "pe-a" sample_old].

(** ** Startup and the credential refresh loop *)

(** [getEnvOrFatal]. *)
Definition getEnvOrFatal (env : string → string) (envVar : string) : M string :=
  let value := env envVar in
  if String.eqb value "" then
    log_Fatalf (envVar +:+ " environment variable is not set")
  else mret value.

(** [strconv.Atoi]: an optional sign followed by decimal digits, within the
    range of a 64-bit [int]. *)
Definition digit_value (c : Ascii.ascii) : option Z :=
  let n := Ascii.nat_of_ascii c in
  if (48 <=? n)%nat && (n <=? 57)%nat then Some (Z.of_nat (n - 48)) else None.

Fixpoint parse_digits (s : string) (acc : Z) : option Z :=
  match s with
  | EmptyString => Some acc
  | String c s' => d ← digit_value c; parse_digits s' (10 * acc + d)%Z
  end.

Definition Atoi (s : string) : res Z :=
  let '(negative, digits) :=
    match s with
    | String c s' =>
        if Ascii.eqb c (Ascii.ascii_of_nat 45) then (true, s')
        else if Ascii.eqb c (Ascii.ascii_of_nat 43) then (false, s')
        else (false, s)
    | EmptyString => (false, s)
    end in
  match digits with
  | EmptyString => Err "invalid syntax"
  | _ =>
      match parse_digits digits 0 with
      | None => Err "invalid syntax"
      | Some n =>
          let v := if negative then (- n)%Z else n in
          if (- 2 ^ 63 <=? v)%Z && (v <=? 2 ^ 63 - 1)%Z then Ok v
          else Err "value out of range"
      end
  end.

(** The refresh intervals as [Init] reads them: [0] unless the variable
    holds a positive integer. *)
Definition refresh_interval (value : string) : Z :=
  if String.eqb value "" then 0%Z
  else
    match Atoi value with
    | Ok v => if (0 <? v)%Z then v else 0%Z
    | Err _ => 0%Z
    end.

Section startup.
Context `{Collaborators}.

(** [auth.NewVaultClient]: the outcome of the [n]-th call of the process. *)
Variable NewVaultClient : nat → res VaultClient.

(** The goroutine that refreshes the Vault client: the first [ticks]
    iterations of its loop, [call] being the number of calls made so far. *)
Fixpoint vault_refresh_loop (ticks call : nat) (vaultClient : VaultClient)
    : M VaultClient :=
  match ticks with
  | O => mret vaultClient
  | S ticks' =>
      log_Printf "Refreshing Vault client...";;
      match NewVaultClient call with
      | Err err => log_Fatalf ("Failed to refresh Vault client: " +:+ err)
      | Ok vaultClient => vault_refresh_loop ticks' (S call) vaultClient
      end
  end.

(** [Init] up to the point where the registry is served, together with the
    first [ticks] ticks of the cluster refresh goroutine when its interval
    enables it.  The package variable [ClusterPrefix] is assigned from
    [CLUSTER_PREFIX]; the ticks are taken with the Vault client created at
    startup, the credential refresh goroutine being modelled on its own
    ([vault_refresh_loop]). *)
Definition Init_process (env : string → string) (ticks : nat)
    : M (gmap string (Cluster Collector)) :=
  PCClusterName ← getEnvOrFatal env "PC_CLUSTER_NAME";
  PCClusterURL ← getEnvOrFatal env "PC_CLUSTER_URL";
  let ClusterPrefix := env "CLUSTER_PREFIX" in
  let clusterRefreshInterval := refresh_interval (env "CLUSTER_REFRESH_INTERVAL") in
  log_Printf "Initializing Vault client";;
  match NewVaultClient 0 with
  | Err err => log_Fatalf ("Failed to create Vault client: " +:+ err)
  | Ok vaultClient =>
      log_Printf "Connecting to Prism Central";;
      match NewCluster PCClusterName PCClusterURL vaultClient true true
              ten_seconds with
      | None => log_Fatalf "Failed to connect to Prism Central cluster"
      | Some PCCluster =>
          Init_directory ClusterPrefix env PCCluster vaultClient
            (if (0 <? clusterRefreshInterval)%Z then ticks else 0)
      end
  end.
End startup.

(** ** The registry across the swap *)

Section swap.
Context {Handle : Type}.
Variable build : option (list (string * Handle)).
Variable old : gmap string Handle.
Variable l0 : loc.

(** The old map object stays as it was, and the registry refers to it until
    the assignment and to the finished new map afterwards. *)
Definition swap_inv (s : state Handle) : Prop :=
  heap s !! l0 = Some old ∧
  match writer s with
  | WTick => ClustersMap s = l0
  | WBuild l _ | WReturned l | WLocked l => ClustersMap s = l0 ∧ l ≠ l0
  | WAssigned => True
  | WDone =>
      (build = None ∧ ClustersMap s = l0) ∨
      ∃ handles, build = Some handles
                 ∧ heap s !! ClustersMap s = Some (complete handles)
  end.
End swap.

(** ** More sample values *)

Definition sample_env (name : string) : string :=
  if String.eqb name "PC_CLUSTER_NAME" then "pc"
  else if String.eqb name "PC_CLUSTER_URL" then "https://pc:9440"
  else if String.eqb name "CLUSTER_REFRESH_INTERVAL" then "30"
  else "".

(** Collaborators whose Prism Central serves [sample_fleet]. *)
Definition serving_collaborators : Collaborators := {|
  VaultClient := unit;
  Collector := string;
  NewCluster := λ name url _ _ _ _,
    if String.eqb name "pe-bad" then None
    else Some (mkCluster name url (always sample_fleet) [] []);
  NewStorageContainerCollector := λ _ config, config;
  NewClusterCollector := λ _ config, config;
  NewHostCollector := λ _ config, config;
  NewVMCollector := λ _ config, config;
  range_order := map_to_list;
  range_order_perm := λ m, Permutation_refl (map_to_list m)
|}.

(** A Vault that answers two calls and is sealed afterwards. *)
Definition sample_vault (n : nat) : res unit :=
  if (n <? 2)%nat then Ok () else Err "vault is sealed".

(** A client whose every answer is a transport error. *)
Definition unreachable : Client := λ _ _, Err "connection refused".

(** The handle that the sample collaborators build for a name and an
    address. *)
Definition sample_handle (name ip : string) : Cluster string :=
  @with_collectors sample_collaborators
    (mkCluster name (endpoint ip) (always ∅) [] []).

Definition sample_generation : gmap string (Cluster string) :=
  {[ "pe-a" := sample_handle "pe-a" "10.0.0.1";
     "pe-c" := sample_handle "pe-c" "10.0.0.3" ]}.

(** The sample interleaving one step later: the refresh goroutine has
    released the lock. *)
Definition sample_run_done : state nat :=
  mkState (<[1 := <["pe-b" := 2]> ∅]> (<[1 := ∅]> {[ 0 := sample_old ]})) 1
    (mkRWMutex false 0) WDone [RDone "pe-a" sample_old].

(** ** The expected mapping, in the words of the specification alone

    These definitions share nothing with the embedding of the code: they
    read an entry along the field paths of its schema and write the
    endpoint out. *)

(** The string, if any, at the end of a path of field names. *)
Definition string_at (path : list string) (e : json) : option string :=
  match json_path path e with
  | Some (JString text) => Some text
  | _ => None
  end.

(** What a surviving entry contributes: its name and [https://ip:9440]. *)
Definition expected_entry (s : Schema) (prefix : string) (e : json)
    : option (string * string) :=
  match string_at (name_path s) e, string_at (ip_path s) e with
  | Some name, Some ip =>
      if decide (name = "Unnamed") then None
      else if String.prefix prefix name
           then Some (name, "https://" +:+ ip +:+ ":9440")
           else None
  | _, _ => None
  end.

Definition expected_entries (s : Schema) (prefix : string) (entries : list json)
    : list (string * string) :=
  omap (expected_entry s prefix) entries.

Definition object_at (path : list string) (e : json) : bool :=
  match json_path path e with
  | Some (JObject _) => true
  | _ => false
  end.

(** A well-formed v4 entry: an object with a [network] object in which
    [externalAddress], when it is an object, has an [ipv4] that is absent,
    [null] or an object. *)
Definition fixture_entry_v4 (e : json) : bool :=
  object_at [] e && object_at ["network"] e &&
  (negb (object_at ["network"; "externalAddress"] e)
   || match json_path ["network"; "externalAddress"; "ipv4"] e with
      | None | Some JNull | Some (JObject _) => true
      | _ => false
      end).

(** A well-formed v3 entity: an object in which [status.resources] is an
    object whenever [spec] and [status] are. *)
Definition fixture_entry_v3 (e : json) : bool :=
  object_at [] e &&
  (negb (object_at ["spec"] e && object_at ["status"] e)
   || object_at ["status"; "resources"] e).

Definition fixture_entry (s : Schema) (e : json) : bool :=
  if String.eqb (list_field s) "entities" then fixture_entry_v3 e
  else fixture_entry_v4 e.

(** * Properties *)

(** ** The resolver, step by step *)

Example HasPrefix_examples :
  passes_prefix "pe-" "pe-a" = true ∧ passes_prefix "pe-" "dc-a" = false
  ∧ passes_prefix "" "dc-a" = true.
Proof. done. Qed.

Example endpoint_example : endpoint "10.0.0.1" = "https://10.0.0.1:9440".
Proof. done. Qed.

Example metrics_lookup_examples :
  @metrics_lookup sample_collaborators {[ "pe-a" := sample_prism ∅ ]}
    "/metrics/pe-a" = Some (sample_prism ∅)
  ∧ @metrics_lookup sample_collaborators {[ "pe-a" := sample_prism ∅ ]}
      "/metrics/pe-z" = None.
Proof. split; vm_compute; reflexivity. Qed.

Lemma range_append_omap {A B} (body : A → Outcome (option B)) (f : A → option B)
    (l : list A) (acc : list B) :
  Forall (λ x, body x = Done (f x)) l →
  range_append body l acc = Done (acc ++ omap f l).
Proof.
  intros H. revert acc. induction H as [|x l Hx _ IH]; intros acc; simpl.
  - by rewrite app_nil_r.
  - rewrite Hx. simpl. destruct (f x) as [b|]; rewrite IH; [|done].
    by rewrite <- app_assoc.
Qed.

Lemma parseV4_entry_wf (e : json) :
  wf_entry_v4 e = true →
  parseV4_entry e =
    Done ((λ p, cluster_record p.1 p.2) <$> named_entry schema_v4 e).
Proof.
  unfold wf_entry_v4, parseV4_entry, named_entry, entry_name, entry_ip, index.
  destruct e as [| | | | |m]; try done. simpl.
  destruct (m !! "name") as [[| | |name| |]|] eqn:Hn; simpl;
    destruct (m !! "network") as [[| | | | |n0]|]; simpl; try done;
    try (destruct (n0 !! "externalAddress") as [[| | | | |na]|]; simpl; try done;
         destruct (na !! "ipv4") as [[| | | | |n4]|]; simpl; try done;
         destruct (n4 !! "value") as [[| | |ip| |]|]; simpl; done).
  destruct (String.eqb name "Unnamed") eqn:Hu.
  { intros _. destruct (n0 !! "externalAddress") as [[| | | | |na]|]; simpl; try done;
      destruct (na !! "ipv4") as [[| | | | |n4]|]; simpl; try done;
      destruct (n4 !! "value") as [[| | |ip| |]|]; simpl; done. }
  destruct (n0 !! "externalAddress") as [[| | | | |na]|]; simpl; try done.
  destruct (na !! "ipv4") as [[| | | | |n4]|]; simpl; try done.
  destruct (n4 !! "value") as [[| | |ip| |]|]; simpl; done.
Qed.

Lemma parseV3_entry_wf (e : json) :
  wf_entry_v3 e = true →
  parseV3_entry e =
    Done ((λ p, cluster_record p.1 p.2) <$> named_entry schema_v3 e).
Proof.
  unfold wf_entry_v3, parseV3_entry, named_entry, entry_name, entry_ip, index.
  destruct e as [| | | | |m]; try done. simpl.
  destruct (m !! "spec") as [[| | | | |sp]|]; simpl;
    destruct (m !! "status") as [[| | | | |st]|]; simpl; try done;
    try (destruct (sp !! "name") as [[| | |name| |]|]; simpl; done).
  - destruct (sp !! "name") as [[| | |name| |]|]; simpl; try done;
      try (destruct (st !! "resources") as [[| | | | |rs]|]; simpl; try done;
           destruct (rs !! "network") as [[| | | | |nw]|]; simpl; try done;
           destruct (nw !! "external_ip") as [[| | |ip| |]|]; simpl; done).
    destruct (st !! "resources") as [[| | | | |rs]|]; simpl; try done.
    intros _. destruct (String.eqb name "Unnamed") eqn:Hu.
    { destruct (rs !! "network") as [[| | | | |nw]|]; simpl; try done;
        destruct (nw !! "external_ip") as [[| | |ip| |]|]; simpl; done. }
    destruct (rs !! "network") as [[| | | | |nw]|]; simpl; try done.
    destruct (nw !! "external_ip") as [[| | |ip| |]|]; simpl; done.
Qed.

Lemma cluster_record_name (name ip : string) :
  default "" (cluster_record name ip !! "name") = name.
Proof. unfold cluster_record. by rewrite lookup_insert_ne, lookup_insert_eq. Qed.

Lemma cluster_record_ip (name ip : string) :
  default "" (cluster_record name ip !! "ip") = ip.
Proof. unfold cluster_record. by rewrite lookup_insert_eq. Qed.

Lemma build_clusterData_spec (prefix : string) (pairs : list (string * string))
    (acc : gmap string string) (w : World) :
  build_clusterData prefix ((λ p, cluster_record p.1 p.2) <$> pairs) acc w =
    (Done (foldl (λ m p, <[p.1 := p.2]> m) acc (omap (keep prefix) pairs)),
     logged (log_line prefix <$> pairs) w).
Proof.
  revert acc w. induction pairs as [|[name ip] pairs IH]; intros acc w.
  - simpl. unfold logged. simpl. rewrite app_nil_r. by destruct w.
  - rewrite !fmap_cons. cbn [build_clusterData fst snd omap list_omap].
    rewrite cluster_record_name, cluster_record_ip.
    rewrite <- negb_orb. fold (passes_prefix prefix name).
    unfold keep at 1, log_line at 1. cbn [fst snd].
    fold (omap (keep prefix) pairs).
    destruct (passes_prefix prefix name); cbn [negb];
      unfold mbind, M_bind; cbn [log_Printf]; rewrite IH;
      rewrite ?lookup_insert_eq; cbn [default foldl fst snd];
      unfold logged; cbn [requests logs]; by rewrite <- app_assoc.
Qed.

Lemma build_clusterData_Done (prefix : string) (clusters : list (gmap string string))
    (acc : gmap string string) (w : World) :
  ∃ m msgs, build_clusterData prefix clusters acc w = (Done m, logged msgs w).
Proof.
  revert acc w. induction clusters as [|cluster clusters IH]; intros acc w.
  - exists acc, []. cbn. unfold logged. rewrite app_nil_r. by destruct w.
  - cbn [build_clusterData]. unfold mbind, M_bind.
    destruct (_ && _); cbn [log_Printf];
      edestruct IH as (m & msgs & ->); eexists m, (_ :: msgs);
      unfold logged; cbn [requests logs]; by rewrite <- app_assoc.
Qed.

(** [FetchClusters] unfolded along its control flow. *)
Lemma FetchClusters_unfold (prefix : string) (api : Client) (version : string)
    (w : World) :
  FetchClusters prefix api version w =
    let req := dispatched_request version in
    let w1 := sent req w in
    match api (length (requests w)) req with
    | Err err => (Done (Err err), w1)
    | Ok body =>
        match Decode body with
        | Err err => (Done (Err err), w1)
        | Ok result =>
            match selected_parser version result with
            | Done (Err err) => (Done (Err err), w1)
            | Done (Ok clusters) =>
                match build_clusterData prefix clusters ∅ w1 with
                | (Done clusterData, w2) => (Done (Ok clusterData), w2)
                | (Panic, w2) => (Panic, w2)
                | (Fatal, w2) => (Fatal, w2)
                end
            | Panic => (Panic, w1)
            | Fatal => (Fatal, w1)
            end
        end
    end.
Proof.
  unfold FetchClusters, dispatched_request, selected_parser, sent.
  destruct (String.eqb version "v3");
    [|destruct (String.eqb version "v4b1")];
    unfold mbind, M_bind, mret, M_ret, MakeRequest, MakeRequestWithParams, lift;
    cbn;
    (destruct (api _ _) as [body|err]; [|done]);
    (destruct (Decode body) as [result|err]; [|done]);
    match goal with
    | |- context [?p result] =>
        destruct (p result) as [[clusters|err]| |]; try done
    end;
    by destruct (build_clusterData _ _ _ _) as [[]].
Qed.

Lemma foldl_insert_lookup {V} (l : list (string * V)) (acc : gmap string V)
    (name : string) :
  foldl (λ m p, <[p.1 := p.2]> m) acc l !! name =
    match last (filter (λ p, p.1 = name) l) with
    | Some p => Some p.2
    | None => acc !! name
    end.
Proof.
  revert acc. induction l as [|[k v] l IH]; intros acc; [done|].
  cbn [foldl fst snd]. rewrite IH. rewrite filter_cons. cbn [fst].
  destruct (decide (k = name)) as [->|Hne].
  - destruct (filter _ l) as [|q qs] eqn:Hf.
    + simpl. by rewrite lookup_insert_eq.
    + change (last ((name, v) :: q :: qs)) with (last (q :: qs)).
      destruct (last (q :: qs)) eqn:Hl; [done|].
      by apply last_None in Hl.
  - destruct (last _); [done|]. by rewrite lookup_insert_ne.
Qed.

Lemma complete_lookup {V} (l : list (string * V)) (name : string) :
  complete l !! name = snd <$> last (filter (λ p, p.1 = name) l).
Proof.
  unfold complete. rewrite foldl_insert_lookup.
  destruct (last _); [done|]. by rewrite lookup_empty.
Qed.

Lemma survivors_keep (s : Schema) (prefix : string) (entries : list json) :
  survivors s prefix entries = omap (keep prefix) (omap (named_entry s) entries).
Proof.
  unfold survivors. induction entries as [|e entries IH]; [done|].
  cbn [omap list_omap]. unfold survives at 1.
  destruct (named_entry s e) as [[name ip]|]; cbn.
  - rewrite IH. unfold keep. cbn [fst snd].
    by destruct (passes_prefix prefix name).
  - apply IH.
Qed.

Lemma omap_fmap_option {A B C} (f : A → option B) (g : B → C) (l : list A) :
  omap (λ x, g <$> f x) l = g <$> omap f l.
Proof.
  induction l as [|x l IH]; [done|]. cbn [omap list_omap].
  destruct (f x); cbn; by rewrite IH.
Qed.

Lemma selected_parser_wf (version : string) (result : gmap string json)
    (entries : list json) :
  index result (list_field (schema_of version)) = JArray entries →
  Forall (λ e, wf_entry version e = true) entries →
  selected_parser version result =
    Done (Ok ((λ p, cluster_record p.1 p.2) <$>
              omap (named_entry (schema_of version)) entries)).
Proof.
  unfold selected_parser, schema_of, wf_entry, parseV4b1Clusters.
  intros Hl Hwf.
  destruct (String.eqb version "v3").
  - unfold parseV3Clusters. cbn in Hl. rewrite Hl. cbn.
    rewrite (range_append_omap _
               (λ e, (λ p, cluster_record p.1 p.2) <$> named_entry schema_v3 e)).
    + cbn. by rewrite omap_fmap_option.
    + eapply Forall_impl; [exact Hwf|]. intros e He. by apply parseV3_entry_wf.
  - assert (parseV4Clusters result =
      Done (Ok ((λ p, cluster_record p.1 p.2) <$>
                omap (named_entry schema_v4) entries))) as Hv4;
      [|by destruct (String.eqb version "v4b1")].
    unfold parseV4Clusters. cbn in Hl. rewrite Hl. cbn.
    rewrite (range_append_omap _
               (λ e, (λ p, cluster_record p.1 p.2) <$> named_entry schema_v4 e)).
    + cbn. by rewrite omap_fmap_option.
    + eapply Forall_impl; [exact Hwf|]. intros e He. by apply parseV4_entry_wf.
Qed.

(** On a response whose entries are well formed, [FetchClusters] returns the
    map built from the surviving entries in list order, after one request
    and one log line per named entry. *)
Lemma FetchClusters_wf (prefix : string) (api : Client) (version : string)
    (w : World) (body : Body) (result : gmap string json) (entries : list json) :
  api (length (requests w)) (dispatched_request version) = Ok body →
  Decode body = Ok result →
  index result (list_field (schema_of version)) = JArray entries →
  Forall (λ e, wf_entry version e = true) entries →
  FetchClusters prefix api version w =
    (Done (Ok (complete (survivors (schema_of version) prefix entries))),
     logged (log_line prefix <$> omap (named_entry (schema_of version)) entries)
       (sent (dispatched_request version) w)).
Proof.
  intros Hapi Hdec Hl Hwf. rewrite FetchClusters_unfold. cbv zeta.
  rewrite Hapi, Hdec, (selected_parser_wf _ _ _ Hl Hwf).
  rewrite build_clusterData_spec. by rewrite survivors_keep.
Qed.

(** ** Claims about the resolver *)

Lemma prefix_empty (s : string) : String.prefix "" s = true.
Proof. by destruct s. Qed.

Lemma passes_prefix_HasPrefix (prefix name : string) :
  passes_prefix prefix name = String.prefix prefix name.
Proof.
  unfold passes_prefix. destruct (String.eqb prefix "") eqn:He; [|done].
  apply String.eqb_eq in He as ->. by rewrite prefix_empty.
Qed.

Lemma string_at_as_string (path : list string) (e : json) :
  string_at path e = json_path path e ≫= as_string.
Proof.
  unfold string_at. by destruct (json_path path e) as [[| | | | |]|].
Qed.

Lemma expected_entry_survives (s : Schema) (prefix : string) (e : json) :
  expected_entry s prefix e = survives s prefix e.
Proof.
  unfold expected_entry, survives, named_entry, entry_name, entry_ip.
  rewrite !string_at_as_string.
  destruct (json_path (name_path s) e ≫= as_string) as [name|]; [|done].
  destruct (json_path (ip_path s) e ≫= as_string) as [ip|]; [|done]. cbn.
  case_decide as Hn.
  - subst name. done.
  - apply String.eqb_neq in Hn. rewrite Hn. cbn.
    by rewrite passes_prefix_HasPrefix.
Qed.

Lemma expected_entries_survivors (s : Schema) (prefix : string)
    (entries : list json) :
  expected_entries s prefix entries = survivors s prefix entries.
Proof.
  unfold expected_entries, survivors. induction entries as [|e entries IH];
    [done|].
  cbn [omap list_omap]. rewrite expected_entry_survives.
  fold (omap (expected_entry s prefix) entries).
  fold (omap (survives s prefix) entries). by rewrite IH.
Qed.

Lemma fixture_entry_v4_wf (e : json) : fixture_entry_v4 e = wf_entry_v4 e.
Proof.
  unfold fixture_entry_v4, wf_entry_v4, object_at, index.
  destruct e as [| | | | |m]; try done. cbn.
  destruct (m !! "network") as [[| | | | |n0]|]; cbn; try done.
  destruct (n0 !! "externalAddress") as [[| | | | |na]|]; cbn; try done.
  by destruct (na !! "ipv4") as [[| | | | |n4]|].
Qed.

Lemma fixture_entry_v3_wf (e : json) : fixture_entry_v3 e = wf_entry_v3 e.
Proof.
  unfold fixture_entry_v3, wf_entry_v3, object_at, index.
  destruct e as [| | | | |m]; try done. cbn.
  destruct (m !! "spec") as [[| | | | |sp]|]; cbn;
    destruct (m !! "status") as [[| | | | |st]|]; cbn; try done;
    by destruct (st !! "resources") as [[| | | | |rs]|].
Qed.

(** C1. For each of the three selectors, paired with the schema it stands
    for and the list query it sends ("v3" with [entities[].spec.name] and
    [entities[].status.resources.network.external_ip]; "v4" and the beta
    selector "v4b1" with [data[].name] and
    [data[].network.externalAddress.ipv4.value]), on a well-formed response
    of that schema [FetchClusters] returns a mapping and no error, and the
    mapping sends every name to the endpoint [https://ip:9440] of the
    surviving entry of that name (the last one, should several carry it) and
    holds no other name.  The expected mapping is read off the response
    along the paths of the schema, apart from the code. *)
Theorem C1_resolver_returns_expected_mapping (prefix : string) (api : Client)
    (version : string) (s : Schema) (req : Request) (w : World)
    (result : gmap string json) (entries : list json) :
  (version = "v3" ∧ s = schema_v3
   ∧ req = mkRequest "POST" "/api/nutanix/v3/clusters/list" (Some v3_payload))
  ∨ (version = "v4" ∧ s = schema_v4
     ∧ req = mkRequest "GET" "/api/clustermgmt/v4.0/config/clusters" None)
  ∨ (version = "v4b1" ∧ s = schema_v4
     ∧ req = mkRequest "GET" "/api/clustermgmt/v4.0.b1/config/clusters" None) →
  api (length (requests w)) req = Ok (Document (JObject result)) →
  result !! list_field s = Some (JArray entries) →
  Forall (λ e, fixture_entry s e = true) entries →
  ∃ (m : gmap string string) (w' : World),
    FetchClusters prefix api version w = (Done (Ok m), w') ∧
    ∀ name, m !! name = last_endpoint name (expected_entries s prefix entries).
Proof.
  intros Hs Hapi Hl Hwf. rewrite expected_entries_survivors.
  assert (s = schema_of version ∧ req = dispatched_request version
          ∧ ∀ e, fixture_entry s e = wf_entry version e) as (-> & -> & Hfix).
  { destruct Hs as [(-> & -> & ->)|[(-> & -> & ->)|(-> & -> & ->)]];
      (split; [done|split; [done|]]); intros e;
      unfold fixture_entry, wf_entry; cbn;
      [apply fixture_entry_v3_wf|apply fixture_entry_v4_wf
      |apply fixture_entry_v4_wf]. }
  eexists _, _. split.
  - eapply FetchClusters_wf; [exact Hapi|reflexivity| |].
    + unfold index. by rewrite Hl.
    + eapply Forall_impl; [exact Hwf|]. intros e He. by rewrite <- Hfix.
  - intros name. apply complete_lookup.
Qed.

Lemma C1_witness :
  ∃ (m : gmap string string) (w' : World),
    FetchClusters "pe-" (always v3_response) "v3" w0 = (Done (Ok m), w') ∧
    ∀ name, m !! name =
      last_endpoint name
        [ ("pe-a", "https://10.0.0.1:9440"); ("pe-c", "https://10.0.0.3:9440") ].
Proof.
  apply (C1_resolver_returns_expected_mapping "pe-" (always v3_response) "v3"
           schema_v3
           (mkRequest "POST" "/api/nutanix/v3/clusters/list" (Some v3_payload))
           w0 v3_response v3_entries).
  - left. repeat split; reflexivity.
  - reflexivity.
  - reflexivity.
  - repeat constructor.
Defined.

(** The three selectors on the sample responses: the mapping that comes
    back, entry by entry. *)
Example resolver_on_samples :
  (FetchClusters "" (always v3_response) "v3" w0).1
    = Done (Ok {[ "pe-a" := "https://10.0.0.1:9440";
                  "pe-c" := "https://10.0.0.3:9440" ]})
  ∧ (FetchClusters "" (always v4_response) "v4" w0).1
    = Done (Ok {[ "pe-a" := "https://10.0.0.1:9440";
                  "pe-c" := "https://10.0.0.3:9440" ]})
  ∧ (FetchClusters "" (always v4_response) "v4b1" w0).1
    = Done (Ok {[ "pe-a" := "https://10.0.0.1:9440";
                  "pe-c" := "https://10.0.0.3:9440" ]}).
Proof. repeat split; vm_compute; reflexivity. Qed.

Lemma range_append_skip {A B} (body : A → Outcome (option B)) (pre post : list A)
    (x : A) (acc : list B) :
  body x = Done None →
  range_append body (pre ++ x :: post) acc = range_append body (pre ++ post) acc.
Proof.
  intros Hx. revert acc. induction pre as [|y pre IH]; intros acc; cbn.
  - by rewrite Hx.
  - destruct (body y) as [[b|]| |]; cbn; by rewrite ?IH.
Qed.

Lemma selected_parser_entries (version : string) (result : gmap string json)
    (entries : list json) :
  index result (list_field (schema_of version)) = JArray entries →
  selected_parser version result =
    clusters ← range_append (selected_entry_parser version) entries [];
    Done (Ok clusters).
Proof.
  unfold selected_parser, selected_entry_parser, schema_of, parseV4b1Clusters.
  intros Hl. destruct (String.eqb version "v3").
  - unfold parseV3Clusters. cbn in Hl. by rewrite Hl.
  - assert (parseV4Clusters result =
      (clusters ← range_append parseV4_entry entries []; Done (Ok clusters)))
      as Hv4; [|by destruct (String.eqb version "v4b1")].
    unfold parseV4Clusters. cbn in Hl. by rewrite Hl.
Qed.

Lemma index_with_entries (version : string) (result : gmap string json)
    (entries : list json) :
  index (with_entries version result entries) (list_field (schema_of version))
    = JArray entries.
Proof. unfold index, with_entries. by rewrite lookup_insert_eq. Qed.

(** An entry on which the parsing loop [continue]s can be taken out of the
    response without changing anything [FetchClusters] does. *)
Lemma FetchClusters_skip (prefix : string) (api api' : Client) (version : string)
    (w : World) (body : Body) (result : gmap string json)
    (pre post : list json) (e : json) :
  selected_entry_parser version e = Done None →
  api (length (requests w)) (dispatched_request version) = Ok body →
  Decode body = Ok result →
  index result (list_field (schema_of version)) = JArray (pre ++ e :: post) →
  api' (length (requests w)) (dispatched_request version) =
    Ok (Document (JObject (with_entries version result (pre ++ post)))) →
  FetchClusters prefix api version w = FetchClusters prefix api' version w.
Proof.
  intros He Hapi Hdec Hl Hapi'. rewrite !FetchClusters_unfold. cbv zeta.
  rewrite Hapi, Hapi', Hdec. cbn [Decode].
  rewrite (selected_parser_entries _ _ _ Hl).
  rewrite (selected_parser_entries _ _ _ (index_with_entries _ _ _)).
  by rewrite (range_append_skip _ _ _ _ _ He).
Qed.

Lemma unnamed_entry_skipped (version : string) (e : json) :
  entry_name (schema_of version) e = Some "Unnamed" →
  selected_entry_parser version e = Done None.
Proof.
  unfold selected_entry_parser, schema_of, entry_name.
  destruct (String.eqb version "v3"); cbn.
  - unfold parseV3_entry, index. destruct e as [| | | | |m]; try done. cbn.
    destruct (m !! "spec") as [[| | | | |sp]|]; cbn; try done.
    destruct (sp !! "name") as [[| | |name| |]|]; cbn; try done.
    intros [= ->]. by destruct (m !! "status") as [[| | | | |st]|].
  - unfold parseV4_entry, index. destruct e as [| | | | |m]; try done. cbn.
    destruct (m !! "name") as [[| | |name| |]|]; cbn; try done.
    by intros [= ->].
Qed.

(** What the parsing loops produce: records of a name other than the
    sentinel and an address. *)
Lemma selected_entry_parser_record (version : string) (e : json)
    (b : gmap string string) :
  selected_entry_parser version e = Done (Some b) →
  ∃ name ip, b = cluster_record name ip ∧ name ≠ "Unnamed".
Proof.
  unfold selected_entry_parser, parseV3_entry, parseV4_entry, must_map.
  intros H. destruct (String.eqb version "v3");
    repeat (cbn in H; case_match; simplify_eq; try done);
    eexists _, _; (split; [done|]); intros ->; done.
Qed.

Lemma range_append_Forall {A B} (P : B → Prop) (body : A → Outcome (option B))
    (l : list A) (acc r : list B) :
  (∀ x b, body x = Done (Some b) → P b) →
  Forall P acc → range_append body l acc = Done r → Forall P r.
Proof.
  intros Hb. revert acc. induction l as [|x l IH]; intros acc Hacc; cbn.
  - by intros [= <-].
  - destruct (body x) as [[b|]| |] eqn:Hx; cbn; try done.
    + apply IH. apply Forall_app. split; [done|]. constructor; [|done]. eauto.
    + by apply IH.
Qed.

Lemma records_of_pairs (clusters : list (gmap string string)) :
  Forall (λ b, ∃ name ip, b = cluster_record name ip ∧ name ≠ "Unnamed") clusters →
  ∃ pairs, clusters = (λ p, cluster_record p.1 p.2) <$> pairs
           ∧ Forall (λ p, p.1 ≠ "Unnamed") pairs.
Proof.
  induction 1 as [|b clusters (name & ip & -> & Hn) _ (pairs & -> & IH)].
  - by exists [].
  - exists ((name, ip) :: pairs). split; [done|]. by constructor.
Qed.

Lemma keep_names (prefix : string) (pairs : list (string * string)) (name : string) :
  name ∈ (omap (keep prefix) pairs).*1 → name ∈ pairs.*1.
Proof.
  induction pairs as [|[n ip] pairs IH]; cbn; [done|].
  unfold keep at 1. cbn. destruct (passes_prefix prefix n); cbn.
  - rewrite !elem_of_cons. intros [->|H]; [by left|right; by apply IH].
  - rewrite elem_of_cons. intros H. right. by apply IH.
Qed.

Lemma complete_lookup_None {V} (l : list (string * V)) (name : string) :
  name ∉ l.*1 → complete l !! name = None.
Proof.
  intros Hn. rewrite complete_lookup.
  destruct (last _) as [[k v]|] eqn:Hl; [|done].
  apply last_Some_elem_of, list_elem_of_filter in Hl as [Hk Hin]. cbn in Hk. subst k.
  destruct Hn. apply list_elem_of_fmap. by exists (name, v).
Qed.

(** The sentinel is never a key of the mapping that [FetchClusters]
    returns, whatever the response. *)
Lemma FetchClusters_no_Unnamed (prefix : string) (api : Client) (version : string)
    (w w' : World) (m : gmap string string) :
  FetchClusters prefix api version w = (Done (Ok m), w') →
  m !! "Unnamed" = None.
Proof.
  rewrite FetchClusters_unfold. cbv zeta.
  destruct (api _ _) as [body|]; [|done].
  destruct (Decode body) as [result|]; [|done].
  destruct (selected_parser version result) as [[clusters|]| |] eqn:Hp; try done.
  assert (∃ pairs, clusters = (λ p, cluster_record p.1 p.2) <$> pairs
                   ∧ Forall (λ p, p.1 ≠ "Unnamed") pairs) as (pairs & -> & Hpairs).
  { apply records_of_pairs.
    destruct (as_slice (index result (list_field (schema_of version))))
      as [entries|] eqn:Hs.
    - assert (index result (list_field (schema_of version)) = JArray entries) as Hl
        by (by destruct (index result _); simplify_eq/=).
      rewrite (selected_parser_entries _ _ _ Hl) in Hp.
      destruct (range_append _ _ _) as [r| |] eqn:Hr; simplify_eq/=.
      eapply range_append_Forall; [|by apply Forall_nil|exact Hr].
      intros x b. apply selected_entry_parser_record.
    - exfalso. revert Hp Hs.
      unfold selected_parser, schema_of, parseV4b1Clusters, parseV3Clusters,
        parseV4Clusters.
      destruct (String.eqb version "v3"); [|destruct (String.eqb version "v4b1")];
        cbn; intros Hp Hs; by rewrite Hs in Hp. }
  rewrite build_clusterData_spec. intros [= <- <-].
  apply (complete_lookup_None (omap (keep prefix) pairs)).
  intros Hin%keep_names. apply list_elem_of_fmap in Hin as ([n ip] & Hn & Hin).
  rewrite Forall_forall in Hpairs. by apply (Hpairs _ Hin).
Qed.

(** C7. Under every selector, an entry whose name is the sentinel "Unnamed"
    is excluded: [FetchClusters] behaves exactly as it does on the response
    without that entry (same result, same requests, same log, hence no error
    on its account), and the sentinel is not a key of the returned
    mapping. *)
Theorem C7_unnamed_entry_excluded (prefix : string) (api api' : Client)
    (version : string) (s : Schema) (w : World) (body : Body)
    (result : gmap string json) (pre post : list json) (e : json) :
  (version = "v3" ∧ s = schema_v3) ∨ (version = "v4" ∧ s = schema_v4)
    ∨ (version = "v4b1" ∧ s = schema_v4) →
  entry_name s e = Some "Unnamed" →
  api (length (requests w)) (dispatched_request version) = Ok body →
  Decode body = Ok result →
  index result (list_field s) = JArray (pre ++ e :: post) →
  api' (length (requests w)) (dispatched_request version) =
    Ok (Document (JObject (with_entries version result (pre ++ post)))) →
  FetchClusters prefix api version w = FetchClusters prefix api' version w ∧
  ∀ m w', FetchClusters prefix api version w = (Done (Ok m), w') →
          m !! "Unnamed" = None.
Proof.
  intros Hs He Hapi Hdec Hl Hapi'.
  assert (s = schema_of version) as ->
    by (by destruct Hs as [[-> ->]|[[-> ->]|[-> ->]]]).
  split.
  - eapply FetchClusters_skip; eauto using unnamed_entry_skipped.
  - intros m w'. apply FetchClusters_no_Unnamed.
Qed.

Lemma C7_witness :
  FetchClusters "" (always v4_response) "v4b1" w0 =
    FetchClusters ""
      (always (with_entries "v4b1" v4_response
                 ([v4_cluster "pe-a" "10.0.0.1"]
                  ++ [v4_cluster_no_ip "pe-b"; v4_cluster "pe-c" "10.0.0.3"])))
      "v4b1" w0 ∧
  ∀ m w', FetchClusters "" (always v4_response) "v4b1" w0 = (Done (Ok m), w') →
          m !! "Unnamed" = None.
Proof.
  apply (C7_unnamed_entry_excluded "" (always v4_response) _ "v4b1" schema_v4 w0
           (Document (JObject v4_response)) v4_response
           [v4_cluster "pe-a" "10.0.0.1"]
           [v4_cluster_no_ip "pe-b"; v4_cluster "pe-c" "10.0.0.3"]
           (v4_cluster "Unnamed" "10.0.0.2")).
  - right. right. split; reflexivity.
  - reflexivity.
  - reflexivity.
  - reflexivity.
  - reflexivity.
  - reflexivity.
Defined.

(** An entry without an IPv4 string is skipped whenever its shape passes the
    unchecked type assertions of the parsing loop. *)
Lemma missing_ip_skipped_when_guarded (version : string) (e : json) :
  wf_entry version e = true →
  entry_ip (schema_of version) e = None →
  selected_entry_parser version e = Done None.
Proof.
  unfold wf_entry, selected_entry_parser, schema_of.
  destruct (String.eqb version "v3"); intros Hwf Hip.
  - rewrite (parseV3_entry_wf _ Hwf). unfold named_entry. rewrite Hip.
    by destruct (entry_name schema_v3 e).
  - rewrite (parseV4_entry_wf _ Hwf). unfold named_entry. rewrite Hip.
    by destruct (entry_name schema_v4 e).
Qed.

(** C8, at the failing inputs.  A v4 (or v4-beta1) entry with a name and no
    [network] block, and a v3 entity whose [status] has no [resources]
    block, lack an IPv4 value; on a response that holds one, [FetchClusters]
    panics instead of leaving the entry out. *)
Theorem C8_entry_without_address_block_panics :
  entry_ip schema_v4 (v4_cluster_bare "pe-x") = None ∧
  entry_ip schema_v3 (v3_cluster_bare "pe-x") = None ∧
  FetchClusters ""
    (always {[ "data" := JArray [v4_cluster "pe-a" "10.0.0.1";
                                 v4_cluster_bare "pe-x"] ]}) "v4" w0
    = (Panic, sent (dispatched_request "v4") w0) ∧
  FetchClusters ""
    (always {[ "data" := JArray [v4_cluster "pe-a" "10.0.0.1";
                                 v4_cluster_bare "pe-x"] ]}) "v4b1" w0
    = (Panic, sent (dispatched_request "v4b1") w0) ∧
  FetchClusters ""
    (always {[ "entities" := JArray [v3_cluster "pe-a" "10.0.0.1";
                                     v3_cluster_bare "pe-x"] ]}) "v3" w0
    = (Panic, sent (dispatched_request "v3") w0).
Proof. repeat split; vm_compute; reflexivity. Qed.

Lemma top_level_fault_parser (version : string) (result : gmap string json) :
  as_slice (index result (list_field (schema_of version))) = None →
  selected_parser version result =
    Done (Err (if String.eqb version "v3"
               then "unexpected response format for v3"
               else "unexpected response format for v4")).
Proof.
  unfold selected_parser, schema_of, parseV4b1Clusters, parseV3Clusters,
    parseV4Clusters.
  destruct (String.eqb version "v3"); [|destruct (String.eqb version "v4b1")];
    cbn; by intros ->.
Qed.

(** C3, as the code has it.  A transport error, a decode error, or a decoded
    document whose list field ([entities] for v3, [data] for v4 and v4-beta1)
    is not an array makes [FetchClusters] return that one error and no
    mapping; nothing is logged, so no entry has been taken up. *)
Theorem C3_top_level_fault_is_one_error (prefix : string) (api : Client)
    (version : string) (w : World) (err : string) :
  top_level_fault version (api (length (requests w)) (dispatched_request version))
    = Some err →
  FetchClusters prefix api version w =
    (Done (Err err), sent (dispatched_request version) w).
Proof.
  rewrite FetchClusters_unfold. cbv zeta. unfold top_level_fault.
  destruct (api _ _) as [body|e]; [|by intros [= ->]].
  destruct (Decode body) as [result|e]; [|by intros [= ->]].
  destruct (as_slice _) eqn:Hs; [done|]. intros [= <-].
  by rewrite (top_level_fault_parser _ _ Hs).
Qed.

(** Conversely, an error comes from such a fault only. *)
Lemma FetchClusters_error_is_top_level (prefix : string) (api : Client)
    (version : string) (w w' : World) (err : string) :
  FetchClusters prefix api version w = (Done (Err err), w') →
  top_level_fault version (api (length (requests w)) (dispatched_request version))
    = Some err.
Proof.
  rewrite FetchClusters_unfold. cbv zeta. unfold top_level_fault.
  destruct (api _ _) as [body|e]; [|by intros [= ->]].
  destruct (Decode body) as [result|e]; [|by intros [= ->]].
  destruct (as_slice _) as [entries|] eqn:Hs.
  - assert (index result (list_field (schema_of version)) = JArray entries) as Hl
      by (by destruct (index result _); simplify_eq/=).
    rewrite (selected_parser_entries _ _ _ Hl).
    destruct (range_append _ _ _) as [clusters| |]; cbn; try done.
    by destruct (build_clusterData_Done prefix clusters ∅
                   (sent (dispatched_request version) w)) as (m & msgs & ->).
  - rewrite (top_level_fault_parser _ _ Hs). by intros [= ->].
Qed.

Lemma C3_witness :
  FetchClusters "" (always {[ "data" := JString "none" ]}) "v4" w0 =
    (Done (Err "unexpected response format for v4"),
     sent (dispatched_request "v4") w0).
Proof.
  apply (C3_top_level_fault_is_one_error ""
           (always {[ "data" := JString "none" ]}) "v4" w0).
  reflexivity.
Defined.

(** C3 as stated fails: a response with an entry whose name is not a string
    (a mismatch with the schema) yields a mapping of the other entries, not
    an error. *)
Lemma C3_counterexample :
  ¬ (∀ (prefix : string) (api : Client) (version : string) (w : World)
       (body : Body) (result : gmap string json) (entries : list json),
       api (length (requests w)) (dispatched_request version) = Ok body →
       Decode body = Ok result →
       index result (list_field (schema_of version)) = JArray entries →
       Exists (λ e, entry_name (schema_of version) e = None) entries →
       ∃ err, (FetchClusters prefix api version w).1 = Done (Err err)).
Proof.
  intros H.
  pose (entries := [v4_cluster_numbered 7 "10.0.0.7"; v4_cluster "pe-c" "10.0.0.3"]).
  pose (result := ({[ "data" := JArray entries ]} : gmap string json)).
  destruct (H "" (always result) "v4" w0 (Document (JObject result)) result entries)
    as [err Herr].
  - reflexivity.
  - reflexivity.
  - reflexivity.
  - left. reflexivity.
  - vm_compute in Herr. discriminate Herr.
Qed.

Example mismatching_entry_yields_partial_mapping :
  FetchClusters ""
    (always {[ "data" := JArray [v4_cluster_numbered 7 "10.0.0.7";
                                 v4_cluster "pe-c" "10.0.0.3"] ]}) "v4" w0
  = (Done (Ok {[ "pe-c" := "https://10.0.0.3:9440" ]}),
     logged ["Found cluster pe-c at https://10.0.0.3:9440"]
       (sent (dispatched_request "v4") w0)).
Proof. vm_compute. reflexivity. Qed.

(** Whatever the answer, [FetchClusters] sends exactly one request: the one
    the selector dispatches to. *)
Lemma FetchClusters_requests (prefix : string) (api : Client) (version : string)
    (w : World) :
  requests (FetchClusters prefix api version w).2 =
    requests w ++ [dispatched_request version].
Proof.
  rewrite FetchClusters_unfold. cbv zeta.
  destruct (api _ _) as [body|]; [|done].
  destruct (Decode body) as [result|]; [|done].
  destruct (selected_parser version result) as [[clusters|]| |]; try done.
  by destruct (build_clusterData_Done prefix clusters ∅
                 (sent (dispatched_request version) w)) as (m & msgs & ->).
Qed.

Lemma foldl_insert_size {V} (l : list (string * V)) (acc : gmap string V) :
  size (foldl (λ m p, <[p.1 := p.2]> m) acc l) ≤ size acc + length l.
Proof.
  revert acc. induction l as [|[k v] l IH]; intros acc; cbn; [lia|].
  pose proof (IH (<[k:=v]> acc)) as H. rewrite map_size_insert in H.
  destruct (acc !! k); unfold id in H; lia.
Qed.

Lemma complete_size {V} (l : list (string * V)) : size (complete l) ≤ length l.
Proof.
  unfold complete. etrans; [apply foldl_insert_size|]. by rewrite map_size_empty.
Qed.

Lemma length_omap_le {A B} (f : A → option B) (l : list A) :
  length (omap f l) ≤ length l.
Proof.
  induction l as [|x l IH]; cbn; [done|]. destruct (f x); cbn; lia.
Qed.

(** C9. Under the v3 selector, against a Prism Central that serves the page
    a list query asks for, resolution sends exactly one request, the POST
    list query with [length] 100 and [offset] 0, and the mapping it returns
    is built from the first 100 entities of the fleet alone: it has at most
    100 names, however large the fleet is. *)
Theorem C9_v3_first_page_only (prefix : string) (fleet : list json) (w : World) :
  Forall (λ e, wf_entry_v3 e = true) fleet →
  ∃ (m : gmap string string) (w' : World),
    FetchClusters prefix (v3_list_server fleet) "v3" w = (Done (Ok m), w') ∧
    requests w' =
      requests w ++ [mkRequest "POST" "/api/nutanix/v3/clusters/list"
                       (Some v3_payload)] ∧
    index v3_payload "length" = JNumber 100 ∧
    index v3_payload "offset" = JNumber 0 ∧
    m = complete (survivors schema_v3 prefix (take 100 fleet)) ∧
    size m ≤ 100.
Proof.
  intros Hwf. eexists _, _. split.
  - eapply (FetchClusters_wf prefix _ "v3" w _ _ (take 100 fleet)).
    + reflexivity.
    + reflexivity.
    + reflexivity.
    + by apply Forall_take.
  - repeat split.
    etrans; [apply complete_size|]. unfold survivors. cbn [schema_of].
    etrans; [apply length_omap_le|]. rewrite length_take. lia.
Qed.

Lemma C9_witness :
  ∃ (m : gmap string string) (w' : World),
    FetchClusters "" (v3_list_server large_fleet) "v3" w0 = (Done (Ok m), w') ∧
    requests w' =
      requests w0 ++ [mkRequest "POST" "/api/nutanix/v3/clusters/list"
                        (Some v3_payload)] ∧
    index v3_payload "length" = JNumber 100 ∧
    index v3_payload "offset" = JNumber 0 ∧
    m = complete (survivors schema_v3 "" (take 100 large_fleet)) ∧
    size m ≤ 100.
Proof.
  apply (C9_v3_first_page_only "" large_fleet w0).
  apply Forall_app. split.
  - apply Forall_replicate. reflexivity.
  - repeat constructor.
Defined.

Example entity_101_is_invisible :
  length large_fleet = 101 ∧
  (FetchClusters "" (v3_list_server large_fleet) "v3" w0).1
    = Done (Ok {[ "pe-a" := "https://10.0.0.1:9440" ]}).
Proof. split; vm_compute; reflexivity. Qed.

Lemma survivor_passes_prefix (s : Schema) (prefix : string) (entries : list json)
    (name url : string) :
  (name, url) ∈ survivors s prefix entries → passes_prefix prefix name = true.
Proof.
  rewrite survivors_keep, list_elem_of_omap. intros ([n ip] & _ & Hk).
  unfold keep in Hk. cbn in Hk.
  destruct (passes_prefix prefix n) eqn:Hp; by simplify_eq.
Qed.

Lemma survivor_logged_found (s : Schema) (prefix : string) (entries : list json)
    (p : string * string) :
  p ∈ survivors s prefix entries →
  ("Found cluster " +:+ p.1 +:+ " at " +:+ p.2)
    ∈ log_line prefix <$> omap (named_entry s) entries.
Proof.
  rewrite survivors_keep, list_elem_of_omap. intros ([n ip] & Hin & Hk).
  apply list_elem_of_fmap. exists (n, ip). split; [|done].
  unfold keep in Hk. unfold log_line. cbn in *.
  destruct (passes_prefix prefix n); by simplify_eq.
Qed.

Lemma skipping_not_logged (prefix : string) (pairs : list (string * string))
    (name : string) :
  passes_prefix prefix name = true →
  ("Skipping cluster " +:+ name) ∉ log_line prefix <$> pairs.
Proof.
  intros Hp Hin. apply list_elem_of_fmap in Hin as ([n ip] & Heq & _).
  unfold log_line in Heq. cbn in Heq.
  destruct (passes_prefix prefix n) eqn:Hn; [done|].
  simplify_eq/=. congruence.
Qed.

Lemma filter_name_absent {V} (l : list (string * V)) (name : string) :
  name ∉ l.*1 → filter (λ p, p.1 = name) l = [].
Proof.
  induction l as [|[k v] l IH]; [done|]. cbn [fmap list_fmap fst].
  rewrite not_elem_of_cons. intros [Hne Hl].
  rewrite filter_cons_False by (cbn; congruence). by apply IH.
Qed.

(** C10. The mapping has one endpoint per name.  When several surviving
    entries carry the same name, the one that comes last in the order of the
    upstream list decides the endpoint; [FetchClusters] still returns a
    mapping and no error, logs every surviving entry, the overwritten ones
    too, as found, and logs no exclusion for that name. *)
Theorem C10_last_duplicate_decides (prefix : string) (api : Client)
    (version : string) (w : World) (body : Body) (result : gmap string json)
    (entries : list json) (before after : list (string * string))
    (name url : string) :
  api (length (requests w)) (dispatched_request version) = Ok body →
  Decode body = Ok result →
  index result (list_field (schema_of version)) = JArray entries →
  Forall (λ e, wf_entry version e = true) entries →
  survivors (schema_of version) prefix entries = before ++ (name, url) :: after →
  name ∉ after.*1 →
  ∃ (m : gmap string string) (w' : World) (added : list string),
    FetchClusters prefix api version w = (Done (Ok m), w') ∧
    m !! name = Some url ∧
    logs w' = logs w ++ added ∧
    Forall (λ p, ("Found cluster " +:+ p.1 +:+ " at " +:+ p.2) ∈ added)
      (before ++ (name, url) :: after) ∧
    ("Skipping cluster " +:+ name) ∉ added.
Proof.
  intros Hapi Hdec Hl Hwf Hsurv Hlast.
  eexists _, _, _. split; [by eapply FetchClusters_wf|].
  split; [|split; [reflexivity|split]].
  - rewrite complete_lookup, Hsurv, filter_app, filter_cons_True by done.
    by rewrite (filter_name_absent _ _ Hlast), last_snoc.
  - rewrite <- Hsurv. apply Forall_forall. intros p Hp.
    by apply survivor_logged_found.
  - apply skipping_not_logged.
    apply (survivor_passes_prefix (schema_of version) prefix entries name url).
    rewrite Hsurv. set_solver.
Qed.

Lemma C10_witness :
  ∃ (m : gmap string string) (w' : World) (added : list string),
    FetchClusters "pe-" (always {[ "data" := JArray duplicated_entries ]}) "v4" w0
      = (Done (Ok m), w') ∧
    m !! "pe-a" = Some "https://10.0.0.3:9440" ∧
    logs w' = logs w0 ++ added ∧
    Forall (λ p, ("Found cluster " +:+ p.1 +:+ " at " +:+ p.2) ∈ added)
      ([("pe-a", "https://10.0.0.1:9440"); ("pe-b", "https://10.0.0.2:9440")]
       ++ ("pe-a", "https://10.0.0.3:9440") :: []) ∧
    ("Skipping cluster " +:+ "pe-a") ∉ added.
Proof.
  apply (C10_last_duplicate_decides "pe-"
           (always {[ "data" := JArray duplicated_entries ]}) "v4" w0
           (Document (JObject {[ "data" := JArray duplicated_entries ]}))
           {[ "data" := JArray duplicated_entries ]} duplicated_entries).
  - reflexivity.
  - reflexivity.
  - reflexivity.
  - repeat constructor.
  - reflexivity.
  - cbn. apply not_elem_of_nil.
Defined.

Example duplicates_resolved :
  FetchClusters "pe-" (always {[ "data" := JArray duplicated_entries ]}) "v4" w0
  = (Done (Ok {[ "pe-a" := "https://10.0.0.3:9440";
                 "pe-b" := "https://10.0.0.2:9440" ]}),
     logged [ "Found cluster pe-a at https://10.0.0.1:9440";
              "Found cluster pe-b at https://10.0.0.2:9440";
              "Found cluster pe-a at https://10.0.0.3:9440" ]
       (sent (dispatched_request "v4") w0)).
Proof. vm_compute. reflexivity. Qed.

(** ** Claims about generations and the refresh loop *)

Section registry_facts.
Context `{Collaborators}.
Implicit Types (vaultClient : VaultClient) (w : World).

Lemma setup_loop_spec vaultClient (entries : list (string * string))
    (acc : gmap string (Cluster Collector)) w :
  setup_loop vaultClient entries acc w =
    (Done (foldl (λ m p, <[p.1 := p.2]> m) acc (omap (built vaultClient) entries)),
     logged (setup_line vaultClient <$> entries) w).
Proof.
  revert acc w. induction entries as [|[name url] entries IH]; intros acc w.
  - cbn. unfold logged. rewrite app_nil_r. by destruct w.
  - cbn [setup_loop omap list_omap fmap list_fmap].
    unfold built at 1, setup_line at 1. cbn [fst snd].
    destruct (NewCluster name url vaultClient false true ten_seconds);
      cbn; unfold mbind, M_bind; cbn [log_Printf]; rewrite IH;
      unfold logged; cbn [requests logs]; by rewrite <- app_assoc.
Qed.

Lemma SetupClusters_unfold (ClusterPrefix : string)
    (prismClient : Cluster Collector) vaultClient (version : string) w :
  SetupClusters ClusterPrefix prismClient vaultClient version w =
    match FetchClusters ClusterPrefix (API prismClient) version w with
    | (Done (Ok clusterData), w1) =>
        (Done (Ok (complete (omap (built vaultClient) (range_order clusterData)))),
         logged (setup_line vaultClient <$> range_order clusterData) w1)
    | (Done (Err err), w1) => (Done (Err err), w1)
    | (Panic, w1) => (Panic, w1)
    | (Fatal, w1) => (Fatal, w1)
    end.
Proof.
  unfold SetupClusters, mbind at 1, M_bind at 1.
  destruct (FetchClusters _ _ _ _) as [[[clusterData|err]| |] w1]; try done.
  unfold mbind, M_bind. by rewrite setup_loop_spec.
Qed.

Lemma range_order_elem_of (m : gmap string string) (name url : string) :
  (name, url) ∈ range_order m ↔ m !! name = Some url.
Proof. by rewrite range_order_perm, elem_of_map_to_list. Qed.

Lemma range_order_functional (m : gmap string string) (name url url' : string) :
  (name, url) ∈ range_order m → (name, url') ∈ range_order m → url = url'.
Proof. rewrite !range_order_elem_of. congruence. Qed.

Lemma built_elem_of vaultClient (l : list (string * string)) (name : string)
    (h : Cluster Collector) :
  (name, h) ∈ omap (built vaultClient) l ↔
  ∃ url cluster, (name, url) ∈ l
    ∧ NewCluster name url vaultClient false true ten_seconds = Some cluster
    ∧ h = with_collectors cluster.
Proof.
  rewrite list_elem_of_omap. unfold built. split.
  - intros ([n url] & Hin & Hb). cbn in Hb.
    destruct (NewCluster n url vaultClient false true ten_seconds)
      as [cluster|] eqn:Hn; simplify_eq/=. eauto.
  - intros (url & cluster & Hin & Hn & ->). exists (name, url).
    split; [done|]. cbn. by rewrite Hn.
Qed.

Lemma complete_lookup_functional {V} (l : list (string * V)) (name : string)
    (v : V) :
  (∀ v', (name, v') ∈ l → v' = v) → (name, v) ∈ l →
  complete l !! name = Some v.
Proof.
  intros Hfun Hin. rewrite complete_lookup.
  destruct (last _) as [[k v']|] eqn:Hl.
  - apply last_Some_elem_of, list_elem_of_filter in Hl as [Hk Hin'].
    cbn in Hk. subst k. cbn. f_equal. by apply Hfun.
  - apply last_None in Hl.
    by destruct (filter_nil_not_elem_of (λ p, p.1 = name) l (name, v) Hl).
Qed.

(** C5. In one pass of [SetupClusters] over the resolved descriptors, a
    descriptor whose handle cannot be built is skipped with a warning in
    the log, and every other descriptor has its handle, with its
    collectors registered, in the generation that is returned; the
    generation holds nothing else, and the pass returns it without
    error. *)
Theorem C5_failed_handle_skipped_siblings_kept (ClusterPrefix : string)
    (prismClient : Cluster Collector) vaultClient (version : string)
    (w w1 : World) (clusterData : gmap string string) :
  FetchClusters ClusterPrefix (API prismClient) version w
    = (Done (Ok clusterData), w1) →
  ∃ (generation : gmap string (Cluster Collector)) (w2 : World),
    SetupClusters ClusterPrefix prismClient vaultClient version w
      = (Done (Ok generation), w2) ∧
    (∀ name url, clusterData !! name = Some url →
       match NewCluster name url vaultClient false true ten_seconds with
       | None =>
           generation !! name = None ∧
           ("Failed to initialize cluster " +:+ name) ∈ logs w2
       | Some cluster => generation !! name = Some (with_collectors cluster)
       end) ∧
    (∀ name, clusterData !! name = None → generation !! name = None).
Proof.
  intros Hfetch. rewrite SetupClusters_unfold, Hfetch.
  eexists _, _. split; [reflexivity|]. split.
  - intros name url Hname. apply range_order_elem_of in Hname.
    destruct (NewCluster name url vaultClient false true ten_seconds)
      as [cluster|] eqn:Hnew.
    + apply complete_lookup_functional.
      * intros h (url' & cluster' & Hin & Hnew' & ->)%built_elem_of.
        rewrite (range_order_functional _ _ _ _ Hin Hname) in Hnew'. congruence.
      * apply built_elem_of. eauto.
    + split.
      * apply complete_lookup_None. intros Hin.
        apply list_elem_of_fmap in Hin as ([n h] & -> & Hin). cbn in Hin.
        apply built_elem_of in Hin as (url' & cluster' & Hin & Hnew' & _).
        cbn in Hnew, Hname.
        rewrite (range_order_functional _ _ _ _ Hin Hname) in Hnew'. congruence.
      * cbn. apply elem_of_app. right. apply list_elem_of_fmap.
        exists (name, url). split; [|done]. unfold setup_line. cbn.
        by rewrite Hnew.
  - intros name Hnone. apply complete_lookup_None. intros Hin.
    apply list_elem_of_fmap in Hin as ([n h] & -> & Hin). cbn in Hin.
    apply built_elem_of in Hin as (url' & _ & Hin & _).
    apply range_order_elem_of in Hin. cbn in Hnone. congruence.
Qed.
End registry_facts.

(** ** Claims about the registry under concurrent access *)

Section concurrent_facts.
Context {Handle : Type}.
Variable build : option (list (string * Handle)).
Variable old : gmap string Handle.
Implicit Types (s : state Handle) (r : reader_pc Handle).

Lemma read_holders_cons r (rs : list (reader_pc Handle)) :
  read_holders (r :: rs) = lock_weight r + read_holders rs.
Proof.
  unfold read_holders, lock_weight. rewrite filter_cons.
  destruct (holds_read_lock r); by case_decide.
Qed.

Lemma read_holders_snoc r (rs : list (reader_pc Handle)) :
  read_holders (rs ++ [r]) = read_holders rs + lock_weight r.
Proof.
  induction rs as [|r' rs IH]; cbn [app].
  - rewrite read_holders_cons. unfold read_holders. cbn. lia.
  - rewrite !read_holders_cons, IH. lia.
Qed.

Lemma read_holders_insert (rs : list (reader_pc Handle)) (i : nat) r r' :
  rs !! i = Some r →
  read_holders (<[i := r']> rs) + lock_weight r
    = read_holders rs + lock_weight r'.
Proof.
  revert i. induction rs as [|r0 rs IH]; intros [|i] Hi; simplify_eq/=.
  - rewrite !read_holders_cons. lia.
  - rewrite !read_holders_cons. specialize (IH _ Hi). lia.
Qed.

Lemma complete_snoc (stored : list (string * Handle)) (name : string)
    (cluster : Handle) :
  complete (stored ++ [(name, cluster)]) = <[name := cluster]> (complete stored).
Proof. unfold complete. by rewrite foldl_app. Qed.

Lemma registry_inv_initial (l0 : loc) : registry_inv build old (initial l0 old).
Proof.
  unfold registry_inv, initial. cbn. split; [by apply Forall_nil|].
  repeat split; try done. by rewrite lookup_singleton_eq.
Qed.

Lemma registry_inv_step s s' :
  registry_inv build old s → step build s s' → registry_inv build old s'.
Proof.
  intros (Hobs & Hw & Hr & Hex & Hpc) Hstep.
  destruct Hstep as
    [s Hpc' Hb | s l todo Hpc' Hb Hfresh | s l name cluster todo g Hpc' Hl
    | s l Hpc' | s l Hpc' Hwl Hrl | s l Hpc' | s Hpc' | s name
    | s i name Hi Hwl | s i name g Hi Hg | s i name g Hi];
    unfold registry_inv; cbn [heap ClustersMap clustersMu writer readers
                               write_locked read_locks holds_write_lock];
    rewrite ?Hpc' in *; cbn [holds_write_lock] in *.
  - (* the refresh failed *)
    repeat split; try done. exists old. split; [done|by left].
  - (* make *)
    assert (l ≠ ClustersMap s) as Hne by congruence.
    repeat split; try done.
    + by rewrite lookup_insert_ne.
    + exists []. split; [done|]. by rewrite lookup_insert_eq.
  - (* a handle is stored in the map under construction *)
    destruct Hpc as (Hold & Hne & stored & Hb & Hst).
    repeat split; try done.
    + by rewrite lookup_insert_ne.
    + exists (stored ++ [(name, cluster)]). split.
      * by rewrite <- app_assoc.
      * rewrite lookup_insert_eq, complete_snoc. congruence.
  - (* SetupClusters returns *)
    destruct Hpc as (Hold & Hne & stored & Hb & Hst).
    repeat split; try done. exists stored. by rewrite app_nil_r in Hb.
  - (* Lock *)
    destruct Hpc as (Hold & handles & Hb & Hst).
    repeat split; try done;
      [congruence|intros _; congruence|by exists handles].
  - (* ClustersMap = newMap *)
    destruct Hpc as (Hold & handles & Hb & Hst).
    repeat split; try done. by exists handles.
  - (* Unlock *)
    destruct Hpc as (handles & Hb & Hst).
    repeat split; try done. exists (complete handles).
    split; [done|]. right. by exists handles.
  - (* a request arrives *)
    split; [|repeat split; try done].
    + apply Forall_app. split; [done|]. by constructor.
    + rewrite read_holders_snoc. cbn. lia.
    + intros Hh. rewrite read_holders_snoc. cbn. rewrite (Hex Hh). lia.
  - (* RLock *)
    pose proof (read_holders_insert _ _ _ (RLocked name) Hi) as Hcount.
    cbn in Hcount.
    split; [|repeat split; try done].
    + apply Forall_insert; [done|]. intros g. by cbn.
    + congruence.
    + lia.
    + intros Hh. congruence.
  - (* the lookup *)
    pose proof (read_holders_insert _ _ _ (RRead name g) Hi) as Hcount.
    cbn in Hcount.
    split; [|repeat split; try done].
    + apply Forall_insert; [done|]. intros g' [= <-].
      destruct (writer s) as [|l todo|l|l| |]; cbn in Hpc.
      * left. congruence.
      * left. destruct Hpc as (Hold & _). congruence.
      * left. destruct Hpc as (Hold & _). congruence.
      * left. destruct Hpc as (Hold & _). congruence.
      * right. destruct Hpc as (handles & Hb & Hst). exists handles.
        split; [done|]. congruence.
      * destruct Hpc as (g0 & Hg0 & Hwhole). congruence.
    + lia.
    + intros Hh. specialize (Hex Hh). lia.
  - (* RUnlock *)
    pose proof (read_holders_insert _ _ _ (RDone name g) Hi) as Hcount.
    cbn in Hcount.
    split; [|repeat split; try done].
    + apply Forall_insert; [done|]. intros g' [= <-].
      rewrite Forall_forall in Hobs.
      apply (Hobs (RRead name g)); [|done].
      by eapply list_elem_of_lookup_2.
    + rewrite Hr. lia.
    + intros Hh. specialize (Hex Hh). lia.
Qed.

Lemma registry_inv_reachable (l0 : loc) s :
  rtc (step build) (initial l0 old) s → registry_inv build old s.
Proof.
  intros Hrtc.
  apply (rtc_ind_r (R := step build) (registry_inv build old) (initial l0 old));
    [|clear|done].
  - apply registry_inv_initial.
  - intros s1 s2 _ Hstep Hinv. by eapply registry_inv_step.
Qed.

Lemma read_holders_none (rs : list (reader_pc Handle)) r :
  read_holders rs = 0 → r ∈ rs → holds_read_lock r = false.
Proof.
  unfold read_holders. intros Hlen%nil_length_inv Hin.
  destruct (holds_read_lock r) eqn:Hr; [|done].
  by destruct (filter_nil_not_elem_of _ _ r Hlen Hr).
Qed.

(** C2. While the refresh goroutine goes through a tick, in every
    interleaving with the [/metrics/] requests: the map that a request
    indexes is a whole generation, the old one or the new one with every
    handle stored; so is the map that [ClustersMap] refers to at any
    moment, the map under construction being a separate object until the
    assignment; and no request holds the read lock while the refresh
    goroutine holds the write lock around the assignment. *)
Theorem C2_readers_observe_whole_generation (l0 : loc) s :
  rtc (step build) (initial l0 old) s →
  (∀ r g, r ∈ readers s → observed r = Some g →
     g = old ∨ ∃ handles, build = Some handles ∧ g = complete handles) ∧
  (∀ r a, r ∈ readers s → answer r = Some a →
     ∃ name, a = old !! name
             ∨ ∃ handles, build = Some handles ∧ a = complete handles !! name) ∧
  (∃ g, heap s !! ClustersMap s = Some g ∧
     (g = old ∨ ∃ handles, build = Some handles ∧ g = complete handles)) ∧
  (holds_write_lock (writer s) = true →
     ∀ r, r ∈ readers s → holds_read_lock r = false).
Proof.
  intros (Hobs & Hw & Hr & Hex & Hpc)%registry_inv_reachable.
  rewrite Forall_forall in Hobs.
  split; [|split; [|split]].
  - intros r g Hin Hg. by apply (Hobs r).
  - intros r a Hin Ha.
    assert (∃ name g, observed r = Some g ∧ a = g !! name) as (name & g & Hg & ->)
      by (destruct r; simplify_eq/=; eauto).
    exists name. destruct (Hobs r Hin g Hg) as [->|(handles & Hb & ->)]; eauto.
  - destruct (writer s) as [|l todo|l|l| |]; cbn in Hpc.
    + exists old. split; [done|by left].
    + exists old. split; [by destruct Hpc|by left].
    + exists old. split; [by destruct Hpc|by left].
    + exists old. split; [by destruct Hpc|by left].
    + destruct Hpc as (handles & Hb & Hst). exists (complete handles).
      split; [done|]. right. by exists handles.
    + done.
  - intros Hh r Hin. eapply read_holders_none; [|done]. by apply Hex.
Qed.
End concurrent_facts.

Lemma sample_run :
  rtc (step sample_build) (initial 0 sample_old) sample_run_end.
Proof.
  eapply rtc_l; [apply (step_request _ _ _ "pe-a")|]. cbn.
  eapply rtc_l; [by apply (step_make _ _ _ 1 [("pe-b", 2)])|]. cbn.
  eapply rtc_l; [by apply (step_RLock _ _ _ 0 "pe-a")|]. cbn.
  eapply rtc_l; [by apply (step_lookup _ _ _ 0 "pe-a" sample_old)|]. cbn.
  eapply rtc_l; [by apply (step_store _ _ _ 1 "pe-b" 2 [] ∅)|]. cbn.
  eapply rtc_l; [by apply (step_return _ _ _ 1)|]. cbn.
  eapply rtc_l; [by apply (step_RUnlock _ _ _ 0 "pe-a" sample_old)|]. cbn.
  eapply rtc_l; [by apply (step_Lock _ _ _ 1)|]. cbn.
  eapply rtc_l; [by apply (step_assign _ _ _ 1)|]. cbn.
  apply rtc_refl.
Qed.

Lemma C2_witness :
  (∀ r g, r ∈ readers sample_run_end → observed r = Some g →
     g = sample_old
     ∨ ∃ handles, sample_build = Some handles ∧ g = complete handles) ∧
  (∀ r a, r ∈ readers sample_run_end → answer r = Some a →
     ∃ name, a = sample_old !! name
             ∨ ∃ handles, sample_build = Some handles
                          ∧ a = complete handles !! name) ∧
  (∃ g, heap sample_run_end !! ClustersMap sample_run_end = Some g ∧
     (g = sample_old
      ∨ ∃ handles, sample_build = Some handles ∧ g = complete handles)) ∧
  (holds_write_lock (writer sample_run_end) = true →
     ∀ r, r ∈ readers sample_run_end → holds_read_lock r = false).
Proof.
  apply (C2_readers_observe_whole_generation sample_build sample_old 0
           sample_run_end).
  exact sample_run.
Defined.

(** When the tick fails, the old generation is all there is to see. *)
Lemma failed_tick_observations {Handle} (old : gmap string Handle) (l0 : loc)
    (s : state Handle) :
  rtc (step None) (initial l0 old) s →
  heap s !! ClustersMap s = Some old ∧
  ∀ r g, r ∈ readers s → observed r = Some g → g = old.
Proof.
  intros (Hobs & _ & _ & _ & Hpc)%registry_inv_reachable.
  assert (∀ g, whole_generation None old g → g = old) as Hwhole.
  { intros g [->|(handles & Hb & _)]; [done|discriminate Hb]. }
  split.
  - destruct (writer s) as [|l todo|l|l| |]; cbn in Hpc.
    + done.
    + by destruct Hpc.
    + by destruct Hpc.
    + by destruct Hpc.
    + by destruct Hpc as (handles & Hb & _).
    + destruct Hpc as (g & Hg & Hw). by rewrite <- (Hwhole g Hw).
  - intros r g Hin Hg. rewrite Forall_forall in Hobs.
    by apply Hwhole, (Hobs r).
Qed.

(** ** Claims about the refresh loop and the selector *)

Lemma requests_logged (msgs : list string) (w : World) :
  requests (logged msgs w) = requests w.
Proof. done. Qed.

Section refresh_facts.
Context `{Collaborators}.
Variable ClusterPrefix : string.
Implicit Types (vaultClient : VaultClient) (w : World)
  (PCCluster : Cluster Collector) (current : gmap string (Cluster Collector)).

Lemma refresh_iteration_unfold PCCluster vaultClient (version : string)
    current w :
  refresh_iteration ClusterPrefix PCCluster vaultClient version current w =
    match SetupClusters ClusterPrefix PCCluster vaultClient version
            (logged ["Refreshing cluster list..."] w) with
    | (Done (Ok newMap), w1) =>
        (Done newMap, logged ["Cluster list refreshed"] w1)
    | (Done (Err err), w1) =>
        (Done current, logged ["Cluster refresh failed: " +:+ err] w1)
    | (Panic, w1) => (Panic, w1)
    | (Fatal, w1) => (Fatal, w1)
    end.
Proof.
  unfold refresh_iteration, mbind, M_bind. cbn [log_Printf].
  fold (logged ["Refreshing cluster list..."] w).
  by destruct (SetupClusters _ _ _ _ _) as [[[newMap|err]| |] w1].
Qed.

Lemma SetupClusters_requests PCCluster vaultClient (version : string) w :
  requests (SetupClusters ClusterPrefix PCCluster vaultClient version w).2 =
    requests w ++ [dispatched_request version].
Proof.
  rewrite SetupClusters_unfold.
  pose proof (FetchClusters_requests ClusterPrefix (API PCCluster) version w)
    as Hreq.
  by destruct (FetchClusters _ _ _ _) as [[[clusterData|err]| |] w1].
Qed.

Lemma refresh_iteration_requests PCCluster vaultClient (version : string)
    current w :
  requests
    (refresh_iteration ClusterPrefix PCCluster vaultClient version current w).2
  = requests w ++ [dispatched_request version].
Proof.
  rewrite refresh_iteration_unfold.
  pose proof (SetupClusters_requests PCCluster vaultClient version
                (logged ["Refreshing cluster list..."] w)) as Hreq.
  by destruct (SetupClusters _ _ _ _ _) as [[[newMap|err]| |] w1].
Qed.

Lemma refresh_loop_requests (ticks : nat) PCCluster vaultClient
    (version : string) current w :
  ∃ k, k ≤ ticks ∧
    requests
      (refresh_loop ClusterPrefix ticks PCCluster vaultClient version
         current w).2
    = requests w ++ replicate k (dispatched_request version).
Proof.
  revert current w. induction ticks as [|ticks IH]; intros current w.
  - exists 0. split; [done|]. cbn. by rewrite app_nil_r.
  - cbn [refresh_loop]. unfold mbind, M_bind.
    pose proof (refresh_iteration_requests PCCluster vaultClient version
                  current w) as Hreq.
    destruct (refresh_iteration _ _ _ _ _ _) as [[next| |] w1]; cbn in Hreq.
    + destruct (IH next w1) as (k & Hk & ->). exists (S k).
      split; [lia|]. rewrite Hreq. cbn. by rewrite <- app_assoc.
    + exists 1. split; [lia|]. done.
    + exists 1. split; [lia|]. done.
Qed.

Lemma Init_directory_requests (env : string → string) PCCluster vaultClient
    (ticks : nat) w :
  ∃ k, 1 ≤ k ≤ S ticks ∧
    requests (Init_directory ClusterPrefix env PCCluster vaultClient ticks w).2
    = requests w ++ replicate k (dispatched_request (startup_version env)).
Proof.
  unfold Init_directory, mbind, M_bind. cbn [log_Printf].
  fold (logged ["Initializing clusters"] w).
  pose proof (SetupClusters_requests PCCluster vaultClient (startup_version env)
                (logged ["Initializing clusters"] w)) as Hreq.
  destruct (SetupClusters _ _ _ _ _) as [[[clusterMap|err]| |] w1]; cbn in Hreq.
  - destruct (refresh_loop_requests ticks PCCluster vaultClient
                (startup_version env) clusterMap w1) as (k & Hk & ->).
    exists (S k). split; [lia|]. rewrite Hreq. cbn. by rewrite <- app_assoc.
  - exists 1. split; [lia|]. done.
  - exists 1. split; [lia|]. done.
  - exists 1. split; [lia|]. done.
Qed.

(** C4. On a tick whose rebuild fails ([SetupClusters] returns an error),
    the iteration leaves the registry with the generation it had, logs
    the failure, and the loop goes on with the next tick from there; the
    generation is the one every concurrent lookup indexes, in every
    interleaving of the failed tick with requests. *)
Theorem C4_failed_refresh_keeps_generation PCCluster vaultClient
    (version : string) current (w w1 : World) (err : string) :
  SetupClusters ClusterPrefix PCCluster vaultClient version
    (logged ["Refreshing cluster list..."] w) = (Done (Err err), w1) →
  refresh_iteration ClusterPrefix PCCluster vaultClient version current w
    = (Done current, logged ["Cluster refresh failed: " +:+ err] w1) ∧
  (∀ ticks,
     refresh_loop ClusterPrefix (S ticks) PCCluster vaultClient version
       current w
     = refresh_loop ClusterPrefix ticks PCCluster vaultClient version current
         (logged ["Cluster refresh failed: " +:+ err] w1)) ∧
  (∀ (l0 : loc) (s : state (Cluster Collector)),
     rtc (step None) (initial l0 current) s →
     heap s !! ClustersMap s = Some current ∧
     ∀ r g, r ∈ readers s → observed r = Some g → g = current).
Proof.
  intros Hfail.
  assert (refresh_iteration ClusterPrefix PCCluster vaultClient version
            current w
          = (Done current, logged ["Cluster refresh failed: " +:+ err] w1))
    as Hit by (by rewrite refresh_iteration_unfold, Hfail).
  split; [done|split].
  - intros ticks. cbn [refresh_loop]. unfold mbind, M_bind. by rewrite Hit.
  - intros l0 s Hrtc.
    by apply (failed_tick_observations current l0).
Qed.
End refresh_facts.

(** C6. The selector decides, among exactly three list queries, the one a
    resolution sends: the v3 POST for "v3", the v4-beta1 GET for the beta
    selector "v4b1" (a different endpoint from the v4 GET), and the v4 GET
    otherwise.  [Init] reads the selector once, taking "v4" when the
    environment leaves it unset, and every resolution of the process, the
    initial one and one per tick, sends the query of that one selector. *)
Theorem C6_selector_dispatch `{Collaborators} (ClusterPrefix : string)
    (env : string → string) (PCCluster : Cluster Collector)
    (vaultClient : VaultClient) (ticks : nat) (w : World) :
  let v3 := mkRequest "POST" "/api/nutanix/v3/clusters/list" (Some v3_payload) in
  let v4b1 := mkRequest "GET" "/api/clustermgmt/v4.0.b1/config/clusters" None in
  let v4 := mkRequest "GET" "/api/clustermgmt/v4.0/config/clusters" None in
  let configured := env "PC_API_VERSION" in
  (∀ (api : Client) (version : string) (w' : World),
     requests (FetchClusters ClusterPrefix api version w').2 =
       requests w' ++ [if String.eqb version "v3" then v3
                       else if String.eqb version "v4b1" then v4b1 else v4]) ∧
  v4b1 ≠ v4 ∧
  startup_version env = (if String.eqb configured "" then "v4" else configured) ∧
  ∃ k, 1 ≤ k ≤ S ticks ∧
    requests (Init_directory ClusterPrefix env PCCluster vaultClient ticks w).2 =
      requests w ++
      replicate k (if String.eqb configured "" then v4
                   else if String.eqb configured "v3" then v3
                   else if String.eqb configured "v4b1" then v4b1 else v4).
Proof.
  cbv zeta. split; [|split; [done|split; [done|]]].
  - intros api version w'. rewrite FetchClusters_requests.
    unfold dispatched_request.
    by destruct (String.eqb version "v3"), (String.eqb version "v4b1").
  - destruct (Init_directory_requests ClusterPrefix env PCCluster vaultClient
                ticks w) as (k & Hk & ->).
    exists k. split; [done|]. do 2 f_equal.
    unfold startup_version, dispatched_request.
    by destruct (String.eqb (env "PC_API_VERSION") "").
Qed.

Example beta_selector_and_default :
  (FetchClusters "" (always v4_response) "v4b1" w0).2 =
    logged [ "Found cluster pe-a at https://10.0.0.1:9440";
             "Found cluster pe-c at https://10.0.0.3:9440" ]
      (sent (mkRequest "GET" "/api/clustermgmt/v4.0.b1/config/clusters" None) w0)
  ∧ requests
      (@Init_directory sample_collaborators "" (λ _, "")
         (sample_prism sample_fleet) () 2 w0).2
    = replicate 3 (mkRequest "GET" "/api/clustermgmt/v4.0/config/clusters" None).
Proof. split; vm_compute; reflexivity. Qed.

Lemma C4_witness :
  @refresh_iteration sample_collaborators "" (sample_prism {[ "data" := JNull ]})
    () "v4" (∅ : gmap string (Cluster string)) w0
  = (Done ∅,
     logged ["Cluster refresh failed: " +:+ "unexpected response format for v4"]
       (sent (dispatched_request "v4")
          (logged ["Refreshing cluster list..."] w0))) ∧
  (∀ ticks,
     @refresh_loop sample_collaborators "" (S ticks)
       (sample_prism {[ "data" := JNull ]}) () "v4" ∅ w0
     = @refresh_loop sample_collaborators "" ticks
         (sample_prism {[ "data" := JNull ]}) () "v4" ∅
         (logged ["Cluster refresh failed: "
                  +:+ "unexpected response format for v4"]
            (sent (dispatched_request "v4")
               (logged ["Refreshing cluster list..."] w0)))) ∧
  (∀ (l0 : loc) (s : state (Cluster string)),
     rtc (step None) (initial l0 ∅) s →
     heap s !! ClustersMap s = Some ∅ ∧
     ∀ r g, r ∈ readers s → observed r = Some g → g = ∅).
Proof.
  apply (@C4_failed_refresh_keeps_generation sample_collaborators ""
           (sample_prism {[ "data" := JNull ]}) () "v4" ∅ w0).
  reflexivity.
Defined.

Lemma C5_witness :
  ∃ (generation : gmap string (Cluster string)) (w2 : World),
    @SetupClusters sample_collaborators "" (sample_prism sample_fleet) () "v4" w0
      = (Done (Ok generation), w2) ∧
    (∀ name url,
       ({[ "pe-a" := "https://10.0.0.1:9440";
           "pe-bad" := "https://10.0.0.2:9440";
           "pe-c" := "https://10.0.0.3:9440" ]} : gmap string string) !! name
         = Some url →
       match @NewCluster sample_collaborators name url () false true ten_seconds
       with
       | None =>
           generation !! name = None ∧
           ("Failed to initialize cluster " +:+ name) ∈ logs w2
       | Some cluster =>
           generation !! name = Some (@with_collectors sample_collaborators cluster)
       end) ∧
    (∀ name,
       ({[ "pe-a" := "https://10.0.0.1:9440";
           "pe-bad" := "https://10.0.0.2:9440";
           "pe-c" := "https://10.0.0.3:9440" ]} : gmap string string) !! name
         = None →
       generation !! name = None).
Proof.
  apply (@C5_failed_handle_skipped_siblings_kept sample_collaborators ""
           (sample_prism sample_fleet) () "v4" w0
           (logged [ "Found cluster pe-a at https://10.0.0.1:9440";
                     "Found cluster pe-bad at https://10.0.0.2:9440";
                     "Found cluster pe-c at https://10.0.0.3:9440" ]
              (sent (dispatched_request "v4") w0))).
  vm_compute. reflexivity.
Defined.

Example failed_handle_is_skipped :
  (@SetupClusters sample_collaborators "" (sample_prism sample_fleet) () "v4" w0).1
  = Done (Ok {[ "pe-a" :=
                  mkCluster "pe-a" "https://10.0.0.1:9440" (always ∅)
                    [ "configs/storage_container.yaml"; "configs/cluster.yaml";
                      "configs/host.yaml"; "configs/vm.yaml" ]
                    [ "configs/storage_container.yaml"; "configs/cluster.yaml";
                      "configs/host.yaml"; "configs/vm.yaml" ];
                "pe-c" :=
                  mkCluster "pe-c" "https://10.0.0.3:9440" (always ∅)
                    [ "configs/storage_container.yaml"; "configs/cluster.yaml";
                      "configs/host.yaml"; "configs/vm.yaml" ]
                    [ "configs/storage_container.yaml"; "configs/cluster.yaml";
                      "configs/host.yaml"; "configs/vm.yaml" ] ]}).
Proof. vm_compute. reflexivity. Qed.

(** * Further properties of the resolver *)

(** What a successful run of [FetchClusters] has done: the parsing loop
    produced named pairs, none with the sentinel, the last loop kept those
    that pass the prefix and logged one line per pair. *)
Lemma FetchClusters_Ok_shape (prefix : string) (api : Client) (version : string)
    (w w' : World) (m : gmap string string) :
  FetchClusters prefix api version w = (Done (Ok m), w') →
  ∃ pairs : list (string * string),
    Forall (λ p, p.1 ≠ "Unnamed") pairs ∧
    m = complete (omap (keep prefix) pairs) ∧
    w' = logged (log_line prefix <$> pairs) (sent (dispatched_request version) w).
Proof.
  rewrite FetchClusters_unfold. cbv zeta.
  destruct (api _ _) as [body|]; [|done].
  destruct (Decode body) as [result|]; [|done].
  destruct (selected_parser version result) as [[clusters|]| |] eqn:Hp; try done.
  assert (∃ pairs, clusters = (λ p, cluster_record p.1 p.2) <$> pairs
                   ∧ Forall (λ p, p.1 ≠ "Unnamed") pairs) as (pairs & -> & Hpairs).
  { apply records_of_pairs.
    destruct (as_slice (index result (list_field (schema_of version))))
      as [entries|] eqn:Hs.
    - assert (index result (list_field (schema_of version)) = JArray entries) as Hl
        by (by destruct (index result _); simplify_eq/=).
      rewrite (selected_parser_entries _ _ _ Hl) in Hp.
      destruct (range_append _ _ _) as [r| |] eqn:Hr; simplify_eq/=.
      eapply range_append_Forall; [|by apply Forall_nil|exact Hr].
      intros x b. apply selected_entry_parser_record.
    - by rewrite (top_level_fault_parser _ _ Hs) in Hp. }
  rewrite build_clusterData_spec. intros [= <- <-]. by exists pairs.
Qed.

Lemma complete_lookup_elem_of {V} (l : list (string * V)) (name : string) (v : V) :
  complete l !! name = Some v → (name, v) ∈ l.
Proof.
  rewrite complete_lookup. destruct (last _) as [[k v']|] eqn:Hl; [|done].
  intros [= <-]. apply last_Some_elem_of, list_elem_of_filter in Hl as [Hk Hin].
  cbn in Hk. by subst k.
Qed.

(** X1. Every name of the mapping that [FetchClusters] returns starts with
    [ClusterPrefix], whatever the response and the selector. *)
Theorem resolved_names_start_with_prefix (prefix : string) (api : Client)
    (version : string) (w w' : World) (m : gmap string string) (name : string) :
  FetchClusters prefix api version w = (Done (Ok m), w') →
  is_Some (m !! name) →
  String.prefix prefix name = true.
Proof.
  intros (pairs & _ & -> & _)%FetchClusters_Ok_shape [url Hurl].
  apply complete_lookup_elem_of, list_elem_of_omap in Hurl as ([n ip] & _ & Hk).
  unfold keep in Hk. cbn in Hk.
  destruct (passes_prefix prefix n) eqn:Hp; simplify_eq.
  by rewrite <- passes_prefix_HasPrefix.
Qed.

Lemma resolved_names_start_with_prefix_witness :
  String.prefix "pe-" "pe-c" = true.
Proof.
  eapply (resolved_names_start_with_prefix "pe-" (always v4_response) "v4" w0).
  - vm_compute. reflexivity.
  - vm_compute. eauto.
Defined.

(** X3. Every endpoint in the mapping has the form [https://ip:9440]. *)
Theorem resolved_endpoints_have_management_port (prefix : string) (api : Client)
    (version : string) (w w' : World) (m : gmap string string)
    (name url : string) :
  FetchClusters prefix api version w = (Done (Ok m), w') →
  m !! name = Some url →
  ∃ ip, url = "https://" +:+ ip +:+ ":9440".
Proof.
  intros (pairs & _ & -> & _)%FetchClusters_Ok_shape Hurl.
  apply complete_lookup_elem_of, list_elem_of_omap in Hurl as ([n ip] & _ & Hk).
  unfold keep in Hk. cbn in Hk.
  destruct (passes_prefix prefix n); simplify_eq. by exists ip.
Qed.

Lemma resolved_endpoints_have_management_port_witness :
  ∃ ip, "https://10.0.0.3:9440" = "https://" +:+ ip +:+ ":9440".
Proof.
  eapply (resolved_endpoints_have_management_port "" (always v3_response) "v3"
            w0 _ _ "pe-c").
  - vm_compute. reflexivity.
  - vm_compute. reflexivity.
Defined.

(** X2. On a well-formed response, an entry that has a name and an address but
    whose name does not start with a non-empty [ClusterPrefix] is logged as
    skipped and its name is not in the mapping. *)
Theorem prefix_mismatch_logged_and_excluded (prefix : string) (api : Client)
    (version : string) (w : World) (body : Body) (result : gmap string json)
    (entries : list json) (e : json) (name ip : string) :
  api (length (requests w)) (dispatched_request version) = Ok body →
  Decode body = Ok result →
  index result (list_field (schema_of version)) = JArray entries →
  Forall (λ e, wf_entry version e = true) entries →
  e ∈ entries →
  named_entry (schema_of version) e = Some (name, ip) →
  prefix ≠ "" →
  String.prefix prefix name = false →
  ∃ (m : gmap string string) (w' : World),
    FetchClusters prefix api version w = (Done (Ok m), w') ∧
    m !! name = None ∧
    ("Skipping cluster " +:+ name) ∈ logs w'.
Proof.
  intros Hapi Hdec Hl Hwf He Hnamed Hne Hpre.
  assert (passes_prefix prefix name = false) as Hpass.
  { unfold passes_prefix. rewrite Hpre, orb_false_r.
    by apply String.eqb_neq. }
  eexists _, _. split; [by eapply FetchClusters_wf|]. split.
  - apply complete_lookup_None. intros Hin.
    apply list_elem_of_fmap in Hin as ([n url] & -> & Hin).
    apply survivor_passes_prefix in Hin. cbn in Hpass. congruence.
  - cbn. apply elem_of_app. right. apply list_elem_of_fmap.
    exists (name, ip). split.
    + unfold log_line. cbn. by rewrite Hpass.
    + apply list_elem_of_omap. by exists e.
Qed.

Lemma prefix_mismatch_logged_and_excluded_witness :
  ∃ (m : gmap string string) (w' : World),
    FetchClusters "pe-c" (always v4_response) "v4" w0 = (Done (Ok m), w') ∧
    m !! "pe-a" = None ∧
    ("Skipping cluster " +:+ "pe-a") ∈ logs w'.
Proof.
  apply (prefix_mismatch_logged_and_excluded "pe-c" (always v4_response) "v4" w0
           (Document (JObject v4_response)) v4_response v4_entries
           (v4_cluster "pe-a" "10.0.0.1") "pe-a" "10.0.0.1").
  - reflexivity.
  - reflexivity.
  - reflexivity.
  - repeat constructor.
  - left.
  - reflexivity.
  - discriminate.
  - reflexivity.
Defined.

Lemma FetchClusters_top_level_fault (prefix : string) (api : Client)
    (version : string) (w : World) (err : string) :
  top_level_fault version (api (length (requests w)) (dispatched_request version))
    = Some err →
  FetchClusters prefix api version w =
    (Done (Err err), sent (dispatched_request version) w).
Proof.
  rewrite FetchClusters_unfold. cbv zeta. unfold top_level_fault.
  destruct (api _ _) as [body|e]; [|by intros [= ->]].
  destruct (Decode body) as [result|e]; [|by intros [= ->]].
  destruct (as_slice _) eqn:Hs; [done|]. intros [= <-].
  by rewrite (top_level_fault_parser _ _ Hs).
Qed.

(** X4. [FetchClusters] returns an error exactly when the answer has a
    top-level fault (transport, decoding, list field): nothing that is wrong
    inside an entry is ever reported as an error. *)
Theorem resolver_error_iff_top_level_fault (prefix : string) (api : Client)
    (version : string) (w : World) (err : string) :
  (∃ w', FetchClusters prefix api version w = (Done (Err err), w')) ↔
  top_level_fault version (api (length (requests w)) (dispatched_request version))
    = Some err.
Proof.
  split.
  - intros [w' Hf]. by eapply FetchClusters_error_is_top_level.
  - intros Hf. eexists. by apply FetchClusters_top_level_fault.
Qed.

Lemma selected_entry_parser_not_Fatal (version : string) (e : json) :
  selected_entry_parser version e ≠ Fatal.
Proof.
  unfold selected_entry_parser, parseV3_entry, parseV4_entry, must_map.
  intros H. destruct (String.eqb version "v3");
    repeat (cbn in H; case_match; simplify_eq; try done).
Qed.

Lemma range_append_Panic {A B} (body : A → Outcome (option B)) (l : list A)
    (acc : list B) :
  (∀ x, body x ≠ Fatal) →
  Exists (λ x, body x = Panic) l →
  range_append body l acc = Panic.
Proof.
  intros Hnf Hex. revert acc.
  induction Hex as [x l Hx|x l _ IH]; intros acc; cbn.
  - by rewrite Hx.
  - destruct (body x) as [[b|]| |] eqn:Hx; cbn; try done.
    by destruct (Hnf x).
Qed.

(** X5. A list element that is not an object (a number, a string, [null], an
    array) makes [FetchClusters] panic, wherever it stands in the list and
    whatever the other entries are. *)
Theorem non_object_entry_panics (prefix : string) (api : Client)
    (version : string) (w : World) (body : Body) (result : gmap string json)
    (entries : list json) :
  api (length (requests w)) (dispatched_request version) = Ok body →
  Decode body = Ok result →
  index result (list_field (schema_of version)) = JArray entries →
  Exists (λ e, as_map e = None) entries →
  FetchClusters prefix api version w =
    (Panic, sent (dispatched_request version) w).
Proof.
  intros Hapi Hdec Hl Hex. rewrite FetchClusters_unfold. cbv zeta.
  rewrite Hapi, Hdec, (selected_parser_entries _ _ _ Hl).
  rewrite range_append_Panic; [done|apply selected_entry_parser_not_Fatal|].
  eapply Exists_impl; [exact Hex|]. intros e He.
  unfold selected_entry_parser, parseV3_entry, parseV4_entry, must_map.
  destruct (String.eqb version "v3"); by rewrite He.
Qed.

Lemma non_object_entry_panics_witness :
  FetchClusters "" (always {[ "data" := JArray [v4_cluster "pe-a" "10.0.0.1";
                                               JNull] ]}) "v4" w0 =
    (Panic, sent (dispatched_request "v4") w0).
Proof.
  apply (non_object_entry_panics "" _ "v4" w0
           (Document (JObject {[ "data" := JArray [v4_cluster "pe-a" "10.0.0.1";
                                                   JNull] ]}))
           {[ "data" := JArray [v4_cluster "pe-a" "10.0.0.1"; JNull] ]}
           [v4_cluster "pe-a" "10.0.0.1"; JNull]).
  - reflexivity.
  - reflexivity.
  - reflexivity.
  - right. left. reflexivity.
Defined.

Lemma nameless_entry_skipped (version : string) (e : json) :
  is_Some (as_map e) →
  entry_name (schema_of version) e = None →
  selected_entry_parser version e = Done None.
Proof.
  unfold selected_entry_parser, schema_of, entry_name.
  intros [m Hm]. destruct e as [| | | | |m']; simplify_eq/=.
  destruct (String.eqb version "v3"); cbn.
  - unfold parseV3_entry, index. cbn.
    destruct (m !! "spec") as [[| | | | |sp]|]; cbn; try done.
    destruct (sp !! "name") as [[| | |name| |]|]; cbn; try done;
      by destruct (m !! "status") as [[| | | | |st]|].
  - unfold parseV4_entry, index. cbn.
    by destruct (m !! "name") as [[| | |name| |]|].
Qed.

(** X6. An entry that is an object but has no string at the name path (the
    field is absent, [null], or of another type) is left out: the run is the
    run on the response without it. *)
Theorem entry_without_string_name_excluded (prefix : string) (api api' : Client)
    (version : string) (w : World) (body : Body) (result : gmap string json)
    (pre post : list json) (e : json) :
  is_Some (as_map e) →
  entry_name (schema_of version) e = None →
  api (length (requests w)) (dispatched_request version) = Ok body →
  Decode body = Ok result →
  index result (list_field (schema_of version)) = JArray (pre ++ e :: post) →
  api' (length (requests w)) (dispatched_request version) =
    Ok (Document (JObject (with_entries version result (pre ++ post)))) →
  FetchClusters prefix api version w = FetchClusters prefix api' version w.
Proof.
  intros Hobj Hname. apply FetchClusters_skip. by apply nameless_entry_skipped.
Qed.

Lemma entry_without_string_name_excluded_witness :
  FetchClusters ""
    (always {[ "data" := JArray ([] ++ v4_cluster_numbered 7 "10.0.0.7"
                                     :: [v4_cluster "pe-c" "10.0.0.3"]) ]})
    "v4" w0
  = FetchClusters ""
      (always (with_entries "v4"
                 {[ "data" := JArray ([] ++ v4_cluster_numbered 7 "10.0.0.7"
                                          :: [v4_cluster "pe-c" "10.0.0.3"]) ]}
                 ([] ++ [v4_cluster "pe-c" "10.0.0.3"])))
      "v4" w0.
Proof.
  apply (entry_without_string_name_excluded "" _ _ "v4" w0
           (Document (JObject
              {[ "data" := JArray ([] ++ v4_cluster_numbered 7 "10.0.0.7"
                                       :: [v4_cluster "pe-c" "10.0.0.3"]) ]}))
           {[ "data" := JArray ([] ++ v4_cluster_numbered 7 "10.0.0.7"
                                    :: [v4_cluster "pe-c" "10.0.0.3"]) ]}
           [] [v4_cluster "pe-c" "10.0.0.3"] (v4_cluster_numbered 7 "10.0.0.7")).
  - by eexists.
  - reflexivity.
  - reflexivity.
  - reflexivity.
  - reflexivity.
  - reflexivity.
Defined.

(** X7. An entry without an IPv4 string whose containers are in place (v4: a
    [network] object whose [externalAddress.ipv4] is absent, [null] or an
    object; v3: a [status.resources] object) is left out: the run is the run
    on the response without it. *)
Theorem entry_without_address_excluded (prefix : string) (api api' : Client)
    (version : string) (w : World) (body : Body) (result : gmap string json)
    (pre post : list json) (e : json) :
  wf_entry version e = true →
  entry_ip (schema_of version) e = None →
  api (length (requests w)) (dispatched_request version) = Ok body →
  Decode body = Ok result →
  index result (list_field (schema_of version)) = JArray (pre ++ e :: post) →
  api' (length (requests w)) (dispatched_request version) =
    Ok (Document (JObject (with_entries version result (pre ++ post)))) →
  FetchClusters prefix api version w = FetchClusters prefix api' version w.
Proof.
  intros Hwf Hip. apply FetchClusters_skip.
  by apply missing_ip_skipped_when_guarded.
Qed.

Lemma entry_without_address_excluded_witness :
  FetchClusters ""
    (always {[ "entities" := JArray ([v3_cluster "pe-a" "10.0.0.1"]
                                     ++ v3_cluster_no_ip "pe-b" :: []) ]})
    "v3" w0
  = FetchClusters ""
      (always (with_entries "v3"
                 {[ "entities" := JArray ([v3_cluster "pe-a" "10.0.0.1"]
                                          ++ v3_cluster_no_ip "pe-b" :: []) ]}
                 ([v3_cluster "pe-a" "10.0.0.1"] ++ [])))
      "v3" w0.
Proof.
  apply (entry_without_address_excluded "" _ _ "v3" w0
           (Document (JObject
              {[ "entities" := JArray ([v3_cluster "pe-a" "10.0.0.1"]
                                       ++ v3_cluster_no_ip "pe-b" :: []) ]}))
           {[ "entities" := JArray ([v3_cluster "pe-a" "10.0.0.1"]
                                    ++ v3_cluster_no_ip "pe-b" :: []) ]}
           [v3_cluster "pe-a" "10.0.0.1"] [] (v3_cluster_no_ip "pe-b")).
  - reflexivity.
  - reflexivity.
  - reflexivity.
  - reflexivity.
  - reflexivity.
  - reflexivity.
Defined.

Lemma resolver_error_iff_top_level_fault_witness :
  ∃ w', FetchClusters "" unreachable "v3" w0 = (Done (Err "connection refused"), w').
Proof.
  apply (resolver_error_iff_top_level_fault "" unreachable "v3" w0
           "connection refused").
  reflexivity.
Defined.

(** * Further properties of generations and of the handler *)

Lemma substring_all (s : string) : String.substring 0 (String.length s) s = s.
Proof. induction s as [|c s IH]; [done|]. cbn. f_equal. apply IH. Qed.

Lemma length_append (p s : string) :
  String.length (p +:+ s) = String.length p + String.length s.
Proof.
  induction p as [|c p IH]; [done|].
  change (S (String.length (p +:+ s)) = S (String.length p + String.length s)).
  by rewrite IH.
Qed.

Lemma prefix_append (p s : string) : String.prefix p (p +:+ s) = true.
Proof.
  induction p as [|c p IH]; [by destruct s|].
  change ((if Ascii.ascii_dec c c then String.prefix p (p +:+ s) else false)
          = true).
  by destruct (Ascii.ascii_dec c c).
Qed.

Lemma substring_append (p s : string) (n : nat) :
  String.substring (String.length p) n (p +:+ s) = String.substring 0 n s.
Proof.
  induction p as [|c p IH]; [done|].
  change (String.substring (String.length p) n (p +:+ s)
          = String.substring 0 n s).
  apply IH.
Qed.

(** The entries of a resolved mapping: a name that starts with the prefix
    and is not the sentinel, sent to an endpoint. *)
Lemma resolved_entry_shape (prefix : string) (api : Client) (version : string)
    (w w' : World) (m : gmap string string) (name url : string) :
  FetchClusters prefix api version w = (Done (Ok m), w') →
  m !! name = Some url →
  ∃ ip, url = endpoint ip ∧ String.prefix prefix name = true ∧ name ≠ "Unnamed".
Proof.
  intros (pairs & Hun & -> & _)%FetchClusters_Ok_shape Hurl.
  apply complete_lookup_elem_of, list_elem_of_omap in Hurl as ([n ip] & Hin & Hk).
  unfold keep in Hk. cbn in Hk.
  destruct (passes_prefix prefix n) eqn:Hp; simplify_eq.
  exists ip. split; [done|]. split.
  - by rewrite <- passes_prefix_HasPrefix.
  - rewrite Forall_forall in Hun. apply (Hun _ Hin).
Qed.

Section generation_facts.
Context `{Collaborators}.
Variable ClusterPrefix : string.
Implicit Types (vaultClient : VaultClient) (w : World)
  (PCCluster : Cluster Collector) (current : gmap string (Cluster Collector)).

(** [strings.TrimPrefix] takes off exactly the prefix that was put on. *)
Lemma TrimPrefix_append (p s : string) : TrimPrefix (p +:+ s) p = s.
Proof.
  unfold TrimPrefix. rewrite prefix_append, length_append, substring_append.
  replace (String.length p + String.length s - String.length p)
    with (String.length s) by lia.
  apply substring_all.
Qed.

(** X8. The handler serves [/metrics/name] from the handle registered under
    exactly [name] and answers 404 exactly when there is none; the name is
    taken as it stands, empty or with slashes in it. *)
Theorem metrics_path_resolves_name (registry : gmap string (Cluster Collector))
    (name : string) :
  metrics_lookup registry ("/metrics/" +:+ name) = registry !! name.
Proof. unfold metrics_lookup. by rewrite TrimPrefix_append. Qed.

(** X9. [SetupClusters] returns an error exactly when the answer of Prism
    Central has a top-level fault, and then it has done nothing but send
    the request: a handle that cannot be built is never an error. *)
Theorem generation_build_error_iff_top_level_fault PCCluster vaultClient
    (version : string) w (err : string) :
  ((∃ w', SetupClusters ClusterPrefix PCCluster vaultClient version w
            = (Done (Err err), w'))
   ↔ top_level_fault version
       (API PCCluster (length (requests w)) (dispatched_request version))
     = Some err) ∧
  (top_level_fault version
     (API PCCluster (length (requests w)) (dispatched_request version))
   = Some err →
   SetupClusters ClusterPrefix PCCluster vaultClient version w
     = (Done (Err err), sent (dispatched_request version) w)).
Proof.
  rewrite SetupClusters_unfold.
  assert (top_level_fault version
            (API PCCluster (length (requests w)) (dispatched_request version))
          = Some err →
          match FetchClusters ClusterPrefix (API PCCluster) version w with
          | (Done (Ok clusterData), w1) =>
              (Done (Ok (complete (omap (built vaultClient)
                                     (range_order clusterData)))),
               logged (setup_line vaultClient <$> range_order clusterData) w1)
          | (Done (Err err), w1) => (Done (Err err), w1)
          | (Panic, w1) => (Panic, w1)
          | (Fatal, w1) => (Fatal, w1)
          end = (Done (Err err), sent (dispatched_request version) w)) as Hback.
  { intros Hf. by rewrite (FetchClusters_top_level_fault _ _ _ _ _ Hf). }
  split; [split|done].
  - intros [w' Hs].
    assert (∃ w', FetchClusters ClusterPrefix (API PCCluster) version w
                  = (Done (Err err), w')) as [w1 Hf].
    { destruct (FetchClusters _ _ _ _) as [[[clusterData|e]| |] w1];
        simplify_eq; eauto. }
    by eapply FetchClusters_error_is_top_level.
  - intros Hf. eexists. by apply Hback.
Qed.

(** X10. Every handle of a generation was built by [NewCluster] for the name it
    is registered under and the endpoint [https://ip:9440] resolved for that
    name, and carries its four collectors (storage container, cluster,
    host, virtual machine, in this order), registered after whatever
    [NewCluster] had registered; the name starts with [ClusterPrefix] and
    is not the sentinel. *)
Theorem generation_handles_are_fully_built PCCluster vaultClient
    (version : string) (w w2 : World)
    (generation : gmap string (Cluster Collector)) (name : string)
    (h : Cluster Collector) :
  SetupClusters ClusterPrefix PCCluster vaultClient version w
    = (Done (Ok generation), w2) →
  generation !! name = Some h →
  ∃ (ip : string) (cluster : Cluster Collector),
    NewCluster name ("https://" +:+ ip +:+ ":9440") vaultClient false true
      ten_seconds = Some cluster ∧
    Collectors h =
      [ NewStorageContainerCollector cluster "configs/storage_container.yaml";
        NewClusterCollector cluster "configs/cluster.yaml";
        NewHostCollector cluster "configs/host.yaml";
        NewVMCollector cluster "configs/vm.yaml" ] ∧
    Registry h = Registry cluster ++ Collectors h ∧
    Name h = Name cluster ∧ URL h = URL cluster ∧
    String.prefix ClusterPrefix name = true ∧ name ≠ "Unnamed".
Proof.
  rewrite SetupClusters_unfold.
  destruct (FetchClusters _ _ _ _) as [[[clusterData|e]| |] w1] eqn:Hf; try done.
  intros [= <- <-] Hh.
  apply complete_lookup_elem_of, built_elem_of in Hh
    as (url & cluster & Hin & Hnew & ->).
  apply range_order_elem_of in Hin.
  destruct (resolved_entry_shape _ _ _ _ _ _ _ _ Hf Hin)
    as (ip & -> & Hpre & Hun).
  exists ip, cluster. repeat split; try done.
  unfold with_collectors, set_Collectors, MustRegister. cbn.
  by rewrite <- !app_assoc.
Qed.
End generation_facts.

Lemma generation_build_error_iff_top_level_fault_witness :
  @SetupClusters sample_collaborators "" (sample_prism {[ "data" := JNull ]}) ()
    "v4" w0
  = (Done (Err "unexpected response format for v4"),
     sent (dispatched_request "v4") w0).
Proof.
  apply (@generation_build_error_iff_top_level_fault sample_collaborators ""
           (sample_prism {[ "data" := JNull ]}) () "v4" w0).
  reflexivity.
Defined.

Lemma generation_handles_are_fully_built_witness :
  ∃ (ip : string) (cluster : Cluster string),
    @NewCluster sample_collaborators "pe-c" ("https://" +:+ ip +:+ ":9440") ()
      false true ten_seconds = Some cluster ∧
    Collectors (@with_collectors sample_collaborators
                  (mkCluster "pe-c" "https://10.0.0.3:9440" (always ∅) [] [])) =
      [ "configs/storage_container.yaml"; "configs/cluster.yaml";
        "configs/host.yaml"; "configs/vm.yaml" ] ∧
    Registry (@with_collectors sample_collaborators
                (mkCluster "pe-c" "https://10.0.0.3:9440" (always ∅) [] [])) =
      Registry cluster ++
      Collectors (@with_collectors sample_collaborators
                    (mkCluster "pe-c" "https://10.0.0.3:9440" (always ∅) [] [])) ∧
    Name (@with_collectors sample_collaborators
            (mkCluster "pe-c" "https://10.0.0.3:9440" (always ∅) [] []))
      = Name cluster ∧
    URL (@with_collectors sample_collaborators
           (mkCluster "pe-c" "https://10.0.0.3:9440" (always ∅) [] []))
      = URL cluster ∧
    String.prefix "pe-" "pe-c" = true ∧ "pe-c" ≠ "Unnamed".
Proof.
  destruct (@generation_handles_are_fully_built sample_collaborators "pe-"
              (sample_prism sample_fleet) () "v4" w0
              (@SetupClusters sample_collaborators "pe-"
                 (sample_prism sample_fleet) () "v4" w0).2
              {[ "pe-a" := @with_collectors sample_collaborators
                             (mkCluster "pe-a" "https://10.0.0.1:9440"
                                (always ∅) [] []);
                 "pe-c" := @with_collectors sample_collaborators
                             (mkCluster "pe-c" "https://10.0.0.3:9440"
                                (always ∅) [] []) ]}
              "pe-c"
              (@with_collectors sample_collaborators
                 (mkCluster "pe-c" "https://10.0.0.3:9440" (always ∅) [] [])))
    as (ip & cluster & Hnew & Hc & Hr & Hn & Hu & Hp & Hs).
  - vm_compute. reflexivity.
  - vm_compute. reflexivity.
  - exists ip, cluster. cbn in Hnew. injection Hnew as <-.
    repeat split; done.
Defined.

(** * Further properties of the refresh loop and of startup *)

Section process_facts.
Context `{Collaborators}.
Implicit Types (vaultClient : VaultClient) (w : World)
  (PCCluster : Cluster Collector) (current : gmap string (Cluster Collector)).

(** X11. [/metrics/Unnamed] is answered with 404 whatever Prism Central says: no
    generation that [SetupClusters] returns has a handle under the
    sentinel. *)
Theorem Unnamed_is_never_served (ClusterPrefix : string) PCCluster vaultClient
    (version : string) (w w2 : World)
    (generation : gmap string (Cluster Collector)) :
  SetupClusters ClusterPrefix PCCluster vaultClient version w
    = (Done (Ok generation), w2) →
  metrics_lookup generation "/metrics/Unnamed" = None.
Proof.
  rewrite SetupClusters_unfold.
  destruct (FetchClusters _ _ _ _) as [[[clusterData|e]| |] w1] eqn:Hf; try done.
  intros [= <- <-].
  change "/metrics/Unnamed" with ("/metrics/" +:+ "Unnamed").
  unfold metrics_lookup. rewrite TrimPrefix_append.
  apply complete_lookup_None. intros Hin.
  apply list_elem_of_fmap in Hin as ([n h] & Hn & Hin). cbn in Hn. subst n.
  apply built_elem_of in Hin as (url & _ & Hin & _).
  apply range_order_elem_of in Hin.
  apply FetchClusters_no_Unnamed in Hf. congruence.
Qed.

(** X12. A refresh whose answer is well formed but has no surviving entry (an
    empty list, or every entry filtered out) is a success: it replaces the
    registry by the empty generation, whatever was served before. *)
Theorem refresh_without_survivors_empties_registry (ClusterPrefix : string)
    PCCluster vaultClient (version : string) current w (body : Body)
    (result : gmap string json) (entries : list json) :
  API PCCluster (length (requests w)) (dispatched_request version) = Ok body →
  Decode body = Ok result →
  index result (list_field (schema_of version)) = JArray entries →
  Forall (λ e, wf_entry version e = true) entries →
  survivors (schema_of version) ClusterPrefix entries = [] →
  ∃ w', refresh_iteration ClusterPrefix PCCluster vaultClient version current w
          = (Done ∅, w') ∧
        last (logs w') = Some "Cluster list refreshed".
Proof.
  intros Hapi Hdec Hl Hwf Hnone.
  rewrite refresh_iteration_unfold, SetupClusters_unfold.
  erewrite FetchClusters_wf; [|exact Hapi|exact Hdec|exact Hl|exact Hwf].
  rewrite Hnone.
  assert (range_order (complete ([] : list (string * string))) = []) as ->.
  { apply Permutation_nil_r. rewrite range_order_perm.
    change (complete ([] : list (string * string))) with (∅ : gmap string string).
    by rewrite map_to_list_empty. }
  eexists. split; [reflexivity|]. cbn. by rewrite last_snoc.
Qed.

(** X13. As long as the loop goes on (nothing panics), it sends exactly one list
    query per tick, whether the ticks succeed or fail: a failed tick is
    neither retried nor does it stop the loop. *)
Theorem refresh_loop_one_request_per_tick (ClusterPrefix : string) (ticks : nat)
    PCCluster vaultClient (version : string) current (w w' : World)
    (final : gmap string (Cluster Collector)) :
  refresh_loop ClusterPrefix ticks PCCluster vaultClient version current w
    = (Done final, w') →
  requests w' = requests w ++ replicate ticks (dispatched_request version).
Proof.
  revert current w. induction ticks as [|ticks IH]; intros current w.
  - cbn. intros [= <- <-]. by rewrite app_nil_r.
  - cbn [refresh_loop]. unfold mbind, M_bind.
    pose proof (refresh_iteration_requests ClusterPrefix PCCluster vaultClient
                  version current w) as Hreq.
    destruct (refresh_iteration _ _ _ _ _ _) as [[next| |] w1]; try done.
    cbn in Hreq. intros Hloop. rewrite (IH _ _ Hloop), Hreq.
    cbn. by rewrite <- app_assoc.
Qed.

(** X14. When Prism Central answers every list query with a top-level fault, the
    registry after any number of ticks is the generation it had, and the
    loop has gone through all of them. *)
Theorem persistent_failure_keeps_generation (ClusterPrefix : string)
    (ticks : nat) PCCluster vaultClient (version : string) current w :
  (∀ n, ∃ err, top_level_fault version
                 (API PCCluster n (dispatched_request version)) = Some err) →
  ∃ w', refresh_loop ClusterPrefix ticks PCCluster vaultClient version current w
          = (Done current, w') ∧
        requests w' = requests w ++ replicate ticks (dispatched_request version).
Proof.
  intros Hdown. revert w. induction ticks as [|ticks IH]; intros w.
  - eexists. split; [reflexivity|]. cbn. by rewrite app_nil_r.
  - cbn [refresh_loop]. unfold mbind, M_bind.
    rewrite refresh_iteration_unfold, SetupClusters_unfold.
    destruct (Hdown (length (requests (logged ["Refreshing cluster list..."] w))))
      as [err Herr].
    rewrite (FetchClusters_top_level_fault _ _ _ _ _ Herr).
    destruct (IH (logged ["Cluster refresh failed: " +:+ err]
                    (sent (dispatched_request version)
                       (logged ["Refreshing cluster list..."] w))))
      as (w' & -> & Hreq).
    eexists. split; [reflexivity|]. rewrite Hreq. cbn.
    by rewrite <- app_assoc.
Qed.

(** X15. When the first answer of Prism Central has a top-level fault, the
    process exits: the failure is logged, one request has been sent, and no
    tick of the refresh loop ever runs. *)
Theorem initial_build_failure_is_fatal (ClusterPrefix : string)
    (env : string → string) PCCluster vaultClient (ticks : nat) w (err : string) :
  top_level_fault (startup_version env)
    (API PCCluster (length (requests w))
       (dispatched_request (startup_version env))) = Some err →
  Init_directory ClusterPrefix env PCCluster vaultClient ticks w =
    (Fatal,
     logged ["Failed to initialize clusters: " +:+ err]
       (sent (dispatched_request (startup_version env))
          (logged ["Initializing clusters"] w))).
Proof.
  intros Hf. unfold Init_directory, mbind, M_bind. cbn [log_Printf].
  fold (logged ["Initializing clusters"] w).
  rewrite SetupClusters_unfold.
  by rewrite (FetchClusters_top_level_fault _ _ _
                (logged ["Initializing clusters"] w) _ Hf).
Qed.
End process_facts.

Lemma Unnamed_is_never_served_witness :
  @metrics_lookup sample_collaborators sample_generation "/metrics/Unnamed" = None.
Proof.
  eapply (@Unnamed_is_never_served sample_collaborators ""
            (sample_prism v4_response) () "v4" w0).
  vm_compute. reflexivity.
Defined.

Lemma refresh_without_survivors_empties_registry_witness :
  ∃ w', @refresh_iteration sample_collaborators "dc-" (sample_prism v4_response)
          () "v4" sample_generation w0 = (Done ∅, w') ∧
        last (logs w') = Some "Cluster list refreshed".
Proof.
  apply (@refresh_without_survivors_empties_registry sample_collaborators "dc-"
           (sample_prism v4_response) () "v4" sample_generation w0
           (Document (JObject v4_response)) v4_response v4_entries).
  - reflexivity.
  - reflexivity.
  - reflexivity.
  - repeat constructor.
  - reflexivity.
Defined.

Lemma refresh_loop_one_request_per_tick_witness :
  requests
    (@refresh_loop sample_collaborators "" 2 (sample_prism v4_response) () "v3"
       sample_generation w0).2
  = requests w0 ++ replicate 2 (dispatched_request "v3").
Proof.
  eapply (@refresh_loop_one_request_per_tick sample_collaborators "" 2
            (sample_prism v4_response) () "v3" sample_generation w0).
  vm_compute. reflexivity.
Defined.

Lemma persistent_failure_keeps_generation_witness :
  ∃ w', @refresh_loop sample_collaborators "" 3
          (mkCluster "pc" "https://pc:9440" unreachable [] []) () "v4"
          sample_generation w0 = (Done sample_generation, w') ∧
        requests w' = requests w0 ++ replicate 3 (dispatched_request "v4").
Proof.
  apply (@persistent_failure_keeps_generation sample_collaborators "" 3
           (mkCluster "pc" "https://pc:9440" unreachable [] []) () "v4"
           sample_generation w0).
  intros n. exists "connection refused". reflexivity.
Defined.

Lemma initial_build_failure_is_fatal_witness :
  @Init_directory sample_collaborators "" (λ _, "")
    (mkCluster "pc" "https://pc:9440" unreachable [] []) () 5 w0 =
    (Fatal,
     logged ["Failed to initialize clusters: " +:+ "connection refused"]
       (sent (dispatched_request "v4") (logged ["Initializing clusters"] w0))).
Proof.
  apply (@initial_build_failure_is_fatal sample_collaborators "" (λ _, "")
           (mkCluster "pc" "https://pc:9440" unreachable [] []) () 5 w0).
  reflexivity.
Defined.

Lemma logged_logged (a b : list string) (w : World) :
  logged b (logged a w) = logged (a ++ b) w.
Proof. unfold logged. cbn. by rewrite <- app_assoc. Qed.

Lemma getEnvOrFatal_set (env : string → string) (envVar : string) (w : World) :
  env envVar ≠ "" → getEnvOrFatal env envVar w = (Done (env envVar), w).
Proof.
  intros Hne%String.eqb_neq. unfold getEnvOrFatal. by rewrite Hne.
Qed.

Lemma getEnvOrFatal_unset (env : string → string) (envVar : string) (w : World) :
  env envVar = "" →
  getEnvOrFatal env envVar w =
    (Fatal, logged [envVar +:+ " environment variable is not set"] w).
Proof. intros He. unfold getEnvOrFatal. by rewrite He. Qed.

Section startup_facts.
Context `{Collaborators}.
Variable NewVaultClient : nat → res VaultClient.
Implicit Types (vaultClient : VaultClient) (w : World)
  (PCCluster : Cluster Collector) (registry : gmap string (Cluster Collector)).

(** [Init] with both required variables set, a Vault client and a Prism
    Central handle. *)
Lemma Init_process_started (env : string → string) (ticks : nat) w vaultClient
    PCCluster :
  env "PC_CLUSTER_NAME" ≠ "" →
  env "PC_CLUSTER_URL" ≠ "" →
  NewVaultClient 0 = Ok vaultClient →
  NewCluster (env "PC_CLUSTER_NAME") (env "PC_CLUSTER_URL") vaultClient true true
    ten_seconds = Some PCCluster →
  Init_process NewVaultClient env ticks w =
    Init_directory (env "CLUSTER_PREFIX") env PCCluster vaultClient
      (if (0 <? refresh_interval (env "CLUSTER_REFRESH_INTERVAL"))%Z
       then ticks else 0)
      (logged ["Initializing Vault client"; "Connecting to Prism Central"] w).
Proof.
  intros Hname Hurl Hvault Hpc. unfold Init_process.
  unfold mbind at 1, M_bind at 1. rewrite (getEnvOrFatal_set _ _ _ Hname).
  unfold mbind at 1, M_bind at 1. rewrite (getEnvOrFatal_set _ _ _ Hurl).
  unfold mbind at 1, M_bind at 1. cbn [log_Printf]. rewrite Hvault.
  unfold mbind at 1, M_bind at 1. cbn [log_Printf]. rewrite Hpc.
  f_equal. unfold logged. cbn. by rewrite <- app_assoc.
Qed.

(** X16. A missing required variable, a Vault client that cannot be created and
    a Prism Central handle that cannot be built each end the process, in
    this order of precedence, with its own message as the last log line and
    before any request has been sent to Prism Central. *)
Theorem startup_failure_is_fatal_before_any_request (env : string → string)
    (ticks : nat) w (reason : string) :
  (env "PC_CLUSTER_NAME" = ""
   ∧ reason = "PC_CLUSTER_NAME environment variable is not set")
  ∨ (env "PC_CLUSTER_NAME" ≠ "" ∧ env "PC_CLUSTER_URL" = ""
     ∧ reason = "PC_CLUSTER_URL environment variable is not set")
  ∨ (env "PC_CLUSTER_NAME" ≠ "" ∧ env "PC_CLUSTER_URL" ≠ ""
     ∧ ∃ err, NewVaultClient 0 = Err err
              ∧ reason = "Failed to create Vault client: " +:+ err)
  ∨ (env "PC_CLUSTER_NAME" ≠ "" ∧ env "PC_CLUSTER_URL" ≠ ""
     ∧ ∃ vaultClient, NewVaultClient 0 = Ok vaultClient
         ∧ NewCluster (env "PC_CLUSTER_NAME") (env "PC_CLUSTER_URL") vaultClient
             true true ten_seconds = None
         ∧ reason = "Failed to connect to Prism Central cluster") →
  ∃ w', Init_process NewVaultClient env ticks w = (Fatal, w') ∧
        requests w' = requests w ∧
        last (logs w') = Some reason.
Proof.
  unfold Init_process.
  intros [[Hname ->]|[(Hname & Hurl & ->)|[(Hname & Hurl & err & Hv & ->)
                                         |(Hname & Hurl & vc & Hv & Hpc & ->)]]].
  - unfold mbind at 1, M_bind at 1. rewrite (getEnvOrFatal_unset _ _ _ Hname).
    eexists. split; [reflexivity|]. split; [done|]. cbn. by rewrite last_snoc.
  - unfold mbind at 1, M_bind at 1. rewrite (getEnvOrFatal_set _ _ _ Hname).
    unfold mbind at 1, M_bind at 1. rewrite (getEnvOrFatal_unset _ _ _ Hurl).
    eexists. split; [reflexivity|]. split; [done|]. cbn. by rewrite last_snoc.
  - unfold mbind at 1, M_bind at 1. rewrite (getEnvOrFatal_set _ _ _ Hname).
    unfold mbind at 1, M_bind at 1. rewrite (getEnvOrFatal_set _ _ _ Hurl).
    unfold mbind at 1, M_bind at 1. cbn [log_Printf]. rewrite Hv.
    eexists. split; [reflexivity|]. split; [done|]. cbn. by rewrite last_snoc.
  - unfold mbind at 1, M_bind at 1. rewrite (getEnvOrFatal_set _ _ _ Hname).
    unfold mbind at 1, M_bind at 1. rewrite (getEnvOrFatal_set _ _ _ Hurl).
    unfold mbind at 1, M_bind at 1. cbn [log_Printf]. rewrite Hv.
    unfold mbind at 1, M_bind at 1. cbn [log_Printf]. rewrite Hpc.
    eexists. split; [reflexivity|]. split; [done|]. cbn. by rewrite last_snoc.
Qed.

Lemma SetupClusters_names (ClusterPrefix : string) PCCluster vaultClient
    (version : string) (w w2 : World) registry (name : string) :
  SetupClusters ClusterPrefix PCCluster vaultClient version w
    = (Done (Ok registry), w2) →
  is_Some (registry !! name) →
  String.prefix ClusterPrefix name = true ∧ name ≠ "Unnamed".
Proof.
  rewrite SetupClusters_unfold.
  destruct (FetchClusters _ _ _ _) as [[[clusterData|e]| |] w1] eqn:Hf; try done.
  intros [= <- <-] [h Hh].
  apply complete_lookup_elem_of, built_elem_of in Hh as (url & _ & Hin & _).
  apply range_order_elem_of in Hin.
  by destruct (resolved_entry_shape _ _ _ _ _ _ _ _ Hf Hin) as (ip & _ & ? & ?).
Qed.

Lemma refresh_loop_names (ClusterPrefix : string) (ticks : nat) PCCluster
    vaultClient (version : string) registry (w w' : World)
    (final : gmap string (Cluster Collector)) :
  (∀ name, is_Some (registry !! name) →
           String.prefix ClusterPrefix name = true ∧ name ≠ "Unnamed") →
  refresh_loop ClusterPrefix ticks PCCluster vaultClient version registry w
    = (Done final, w') →
  ∀ name, is_Some (final !! name) →
          String.prefix ClusterPrefix name = true ∧ name ≠ "Unnamed".
Proof.
  revert registry w. induction ticks as [|ticks IH]; intros registry w Hreg.
  - cbn. by intros [= <- <-].
  - cbn [refresh_loop]. unfold mbind, M_bind.
    rewrite refresh_iteration_unfold.
    destruct (SetupClusters _ _ _ _ _) as [[[newMap|err]| |] w1] eqn:Hs; try done.
    + apply IH. intros name. by eapply SetupClusters_names.
    + by apply IH.
Qed.

(** X17. Whenever the process is up, after the initial build and after any
    number of refresh ticks, every name it serves starts with the value of
    [CLUSTER_PREFIX] and none is the sentinel. *)
Theorem served_names_respect_CLUSTER_PREFIX (env : string → string)
    (ticks : nat) (w w' : World) registry (name : string) :
  Init_process NewVaultClient env ticks w = (Done registry, w') →
  is_Some (registry !! name) →
  String.prefix (env "CLUSTER_PREFIX") name = true ∧ name ≠ "Unnamed".
Proof.
  destruct (decide (env "PC_CLUSTER_NAME" = "")) as [Hname|Hname].
  { unfold Init_process, mbind at 1, M_bind at 1.
    by rewrite (getEnvOrFatal_unset _ _ _ Hname). }
  destruct (decide (env "PC_CLUSTER_URL" = "")) as [Hurl|Hurl].
  { unfold Init_process, mbind at 1, M_bind at 1.
    rewrite (getEnvOrFatal_set _ _ _ Hname).
    unfold mbind at 1, M_bind at 1.
    by rewrite (getEnvOrFatal_unset _ _ _ Hurl). }
  destruct (NewVaultClient 0) as [vaultClient|err] eqn:Hv.
  2:{ unfold Init_process, mbind at 1, M_bind at 1.
      rewrite (getEnvOrFatal_set _ _ _ Hname).
      unfold mbind at 1, M_bind at 1. rewrite (getEnvOrFatal_set _ _ _ Hurl).
      unfold mbind at 1, M_bind at 1. cbn [log_Printf]. by rewrite Hv. }
  destruct (NewCluster (env "PC_CLUSTER_NAME") (env "PC_CLUSTER_URL") vaultClient
              true true ten_seconds) as [PCCluster|] eqn:Hpc.
  2:{ unfold Init_process, mbind at 1, M_bind at 1.
      rewrite (getEnvOrFatal_set _ _ _ Hname).
      unfold mbind at 1, M_bind at 1. rewrite (getEnvOrFatal_set _ _ _ Hurl).
      unfold mbind at 1, M_bind at 1. cbn [log_Printf]. rewrite Hv.
      unfold mbind at 1, M_bind at 1. cbn [log_Printf]. by rewrite Hpc. }
  rewrite (Init_process_started _ _ _ _ _ Hname Hurl Hv Hpc).
  unfold Init_directory, mbind, M_bind. cbn [log_Printf].
  destruct (SetupClusters _ _ _ _ _) as [[[clusterMap|err]| |] w1] eqn:Hs; try done.
  intros Hloop. eapply refresh_loop_names; [|exact Hloop].
  intros n. by eapply SetupClusters_names.
Qed.

(** X18. With [CLUSTER_REFRESH_INTERVAL] unset, not an integer, or not positive,
    the refresh loop never runs: however many ticks go by, the process does
    what it does with none, and it sends at most one list query in its
    life. *)
Theorem disabled_refresh_interval_means_single_build (env : string → string)
    (ticks : nat) w :
  env "CLUSTER_REFRESH_INTERVAL" = ""
  ∨ (∃ err, Atoi (env "CLUSTER_REFRESH_INTERVAL") = Err err)
  ∨ (∃ v, Atoi (env "CLUSTER_REFRESH_INTERVAL") = Ok v ∧ (v ≤ 0)%Z) →
  Init_process NewVaultClient env ticks w = Init_process NewVaultClient env 0 w ∧
  length (requests (Init_process NewVaultClient env ticks w).2)
    ≤ S (length (requests w)).
Proof.
  intros Hoff.
  assert (refresh_interval (env "CLUSTER_REFRESH_INTERVAL") = 0%Z) as Hzero.
  { unfold refresh_interval.
    destruct Hoff as [->|[[err ->]|(v & -> & Hv)]]; [done| |].
    - by destruct (String.eqb _ _).
    - destruct (String.eqb _ _); [done|].
      destruct (0 <? v)%Z eqn:Hlt; [|done]. apply Z.ltb_lt in Hlt. lia. }
  assert (Init_process NewVaultClient env ticks w
          = Init_process NewVaultClient env 0 w) as Heq.
  { unfold Init_process. rewrite Hzero. by destruct ticks. }
  split; [done|]. rewrite Heq. clear Heq Hoff Hzero.
  destruct (decide (env "PC_CLUSTER_NAME" = "")) as [Hname|Hname].
  { unfold Init_process, mbind at 1, M_bind at 1.
    rewrite (getEnvOrFatal_unset _ _ _ Hname). cbn. lia. }
  destruct (decide (env "PC_CLUSTER_URL" = "")) as [Hurl|Hurl].
  { unfold Init_process, mbind at 1, M_bind at 1.
    rewrite (getEnvOrFatal_set _ _ _ Hname).
    unfold mbind at 1, M_bind at 1.
    rewrite (getEnvOrFatal_unset _ _ _ Hurl). cbn. lia. }
  destruct (NewVaultClient 0) as [vaultClient|err] eqn:Hv.
  2:{ unfold Init_process, mbind at 1, M_bind at 1.
      rewrite (getEnvOrFatal_set _ _ _ Hname).
      unfold mbind at 1, M_bind at 1. rewrite (getEnvOrFatal_set _ _ _ Hurl).
      unfold mbind at 1, M_bind at 1. cbn [log_Printf]. rewrite Hv. cbn. lia. }
  destruct (NewCluster (env "PC_CLUSTER_NAME") (env "PC_CLUSTER_URL") vaultClient
              true true ten_seconds) as [PCCluster|] eqn:Hpc.
  2:{ unfold Init_process, mbind at 1, M_bind at 1.
      rewrite (getEnvOrFatal_set _ _ _ Hname).
      unfold mbind at 1, M_bind at 1. rewrite (getEnvOrFatal_set _ _ _ Hurl).
      unfold mbind at 1, M_bind at 1. cbn [log_Printf]. rewrite Hv.
      unfold mbind at 1, M_bind at 1. cbn [log_Printf]. rewrite Hpc. cbn. lia. }
  rewrite (Init_process_started _ _ _ _ _ Hname Hurl Hv Hpc).
  destruct (Init_directory_requests (env "CLUSTER_PREFIX") env PCCluster
              vaultClient
              (if (0 <? refresh_interval (env "CLUSTER_REFRESH_INTERVAL"))%Z
               then 0 else 0)
              (logged ["Initializing Vault client"; "Connecting to Prism Central"]
                 w)) as (k & Hk & ->).
  rewrite length_app, length_replicate. cbn [requests logged].
  destruct (0 <? _)%Z; lia.
Qed.
End startup_facts.

Section vault_facts.
Context `{Collaborators}.
Variable NewVaultClient : nat → res VaultClient.

Lemma vault_refresh_loop_tick (ticks call : nat) (vaultClient : VaultClient)
    (w : World) :
  vault_refresh_loop NewVaultClient (S ticks) call vaultClient w =
    match NewVaultClient call with
    | Err err =>
        (Fatal, logged ["Refreshing Vault client...";
                        "Failed to refresh Vault client: " +:+ err] w)
    | Ok fresh =>
        vault_refresh_loop NewVaultClient ticks (S call) fresh
          (logged ["Refreshing Vault client..."] w)
    end.
Proof.
  cbn [vault_refresh_loop]. unfold mbind, M_bind. cbn [log_Printf].
  destruct (NewVaultClient call); [done|].
  unfold log_Fatalf, logged. cbn. by rewrite <- app_assoc.
Qed.

(** X19. The credential refresh loop ends the process at the first call that
    fails: the failure is logged after one refresh line per tick so far,
    and the calls of later ticks are never made, whatever they would
    return. *)
Theorem vault_refresh_failure_is_fatal (ticks call k : nat)
    (vaultClient : VaultClient) (w : World) (err : string) :
  k < ticks →
  (∀ i, i < k → ∃ fresh, NewVaultClient (call + i) = Ok fresh) →
  NewVaultClient (call + k) = Err err →
  vault_refresh_loop NewVaultClient ticks call vaultClient w =
    (Fatal,
     logged (replicate (S k) "Refreshing Vault client..."
             ++ ["Failed to refresh Vault client: " +:+ err]) w).
Proof.
  revert ticks call vaultClient w.
  induction k as [|k IH]; intros ticks call vaultClient w Hlt Hok Herr.
  - destruct ticks as [|ticks]; [lia|]. rewrite vault_refresh_loop_tick.
    rewrite Nat.add_0_r in Herr. by rewrite Herr.
  - destruct ticks as [|ticks]; [lia|]. rewrite vault_refresh_loop_tick.
    destruct (Hok 0) as [fresh Hfresh]; [lia|].
    rewrite Nat.add_0_r in Hfresh. rewrite Hfresh.
    rewrite (IH ticks (S call) fresh _ ltac:(lia)).
    + by rewrite logged_logged.
    + intros i Hi. destruct (Hok (S i)) as [f Hf]; [lia|].
      exists f. by rewrite <- Hf, Nat.add_succ_r.
    + by rewrite <- Herr, Nat.add_succ_r.
Qed.

(** X20. While every call succeeds, the loop goes on and the Vault client in use
    after a tick is the one that the call of that tick returned. *)
Theorem vault_refresh_keeps_latest_client (ticks call : nat)
    (vaultClient : VaultClient) (w : World) (issued : nat → VaultClient) :
  (∀ i, i < S ticks → NewVaultClient (call + i) = Ok (issued i)) →
  vault_refresh_loop NewVaultClient (S ticks) call vaultClient w =
    (Done (issued ticks),
     logged (replicate (S ticks) "Refreshing Vault client...") w).
Proof.
  revert call vaultClient w issued.
  induction ticks as [|ticks IH]; intros call vaultClient w issued Hok.
  - pose proof (Hok 0 ltac:(lia)) as H0. rewrite Nat.add_0_r in H0.
    rewrite vault_refresh_loop_tick, H0. done.
  - pose proof (Hok 0 ltac:(lia)) as H0. rewrite Nat.add_0_r in H0.
    rewrite vault_refresh_loop_tick, H0.
    rewrite (IH (S call) (issued 0) _ (λ i, issued (S i))).
    + by rewrite logged_logged.
    + intros i Hi. rewrite <- (Hok (S i)) by lia. by rewrite Nat.add_succ_r.
Qed.
End vault_facts.

Lemma vault_refresh_failure_is_fatal_witness :
  @vault_refresh_loop sample_collaborators sample_vault 5 1 () w0 =
    (Fatal,
     logged (replicate 2 "Refreshing Vault client..."
             ++ ["Failed to refresh Vault client: " +:+ "vault is sealed"]) w0).
Proof.
  apply (@vault_refresh_failure_is_fatal sample_collaborators sample_vault
           5 1 1 () w0 "vault is sealed").
  - lia.
  - intros i Hi. exists (). destruct i as [|i]; [reflexivity|lia].
  - reflexivity.
Defined.

Lemma vault_refresh_keeps_latest_client_witness :
  @vault_refresh_loop sample_collaborators sample_vault 2 0 () w0 =
    (Done (), logged (replicate 2 "Refreshing Vault client...") w0).
Proof.
  apply (@vault_refresh_keeps_latest_client sample_collaborators sample_vault
           1 0 () w0 (λ _, ())).
  intros i Hi. destruct i as [|[|i]]; [reflexivity|reflexivity|lia].
Defined.

Lemma startup_failure_is_fatal_before_any_request_witness :
  ∃ w', @Init_process sample_collaborators (λ _, Err "vault is sealed")
          sample_env 3 w0 = (Fatal, w') ∧
        requests w' = requests w0 ∧
        last (logs w') = Some ("Failed to create Vault client: "
                               +:+ "vault is sealed").
Proof.
  apply (@startup_failure_is_fatal_before_any_request sample_collaborators
           (λ _, Err "vault is sealed") sample_env 3 w0).
  right. right. left. split; [discriminate|]. split; [discriminate|].
  exists "vault is sealed". split; reflexivity.
Defined.

Lemma served_names_respect_CLUSTER_PREFIX_witness :
  String.prefix (sample_env "CLUSTER_PREFIX") "pe-c" = true ∧ "pe-c" ≠ "Unnamed".
Proof.
  eapply (@served_names_respect_CLUSTER_PREFIX serving_collaborators sample_vault
            sample_env 2 w0).
  - vm_compute. reflexivity.
  - vm_compute. eauto.
Defined.

Lemma disabled_refresh_interval_means_single_build_witness :
  @Init_process serving_collaborators sample_vault
    (λ name, if String.eqb name "CLUSTER_REFRESH_INTERVAL" then "-30"
             else sample_env name) 7 w0
  = @Init_process serving_collaborators sample_vault
      (λ name, if String.eqb name "CLUSTER_REFRESH_INTERVAL" then "-30"
               else sample_env name) 0 w0 ∧
  length (requests
            (@Init_process serving_collaborators sample_vault
               (λ name, if String.eqb name "CLUSTER_REFRESH_INTERVAL" then "-30"
                        else sample_env name) 7 w0).2)
    ≤ S (length (requests w0)).
Proof.
  apply (@disabled_refresh_interval_means_single_build serving_collaborators
           sample_vault).
  right. right. exists (-30)%Z. split; [reflexivity|lia].
Defined.

Example startup_runs_the_refresh_loop :
  requests (@Init_process serving_collaborators sample_vault sample_env 2 w0).2
    = replicate 3 (dispatched_request "v4")
  ∧ (@Init_process serving_collaborators sample_vault sample_env 2 w0).1
    = Done ({[ "pe-a" := @with_collectors serving_collaborators
                           (mkCluster "pe-a" "https://10.0.0.1:9440"
                              (always sample_fleet) [] []);
               "pe-c" := @with_collectors serving_collaborators
                           (mkCluster "pe-c" "https://10.0.0.3:9440"
                              (always sample_fleet) [] []) ]}).
Proof. split; vm_compute; reflexivity. Qed.

(** * Further properties of the registry under concurrent access *)

Section swap_facts.
Context {Handle : Type}.
Variable build : option (list (string * Handle)).
Variable old : gmap string Handle.
Variable l0 : loc.
Implicit Types (s : state Handle) (r : reader_pc Handle).

Lemma swap_inv_initial : swap_inv build old l0 (initial l0 old).
Proof. split; [apply lookup_singleton_eq|done]. Qed.

Lemma swap_inv_step s s' :
  registry_inv build old s → swap_inv build old l0 s → step build s s' →
  swap_inv build old l0 s'.
Proof.
  intros (_ & _ & _ & _ & Hpc) [Hold Hsw] Hstep.
  destruct Hstep as
    [s Hpc' Hb | s l todo Hpc' Hb Hfresh | s l name cluster todo g Hpc' Hl
    | s l Hpc' | s l Hpc' Hwl Hrl | s l Hpc' | s Hpc' | s name
    | s i name Hi Hwl | s i name g Hi Hg | s i name g Hi];
    unfold swap_inv; cbn [heap ClustersMap clustersMu writer readers];
    rewrite ?Hpc' in *; try done.
  - split; [done|]. by left.
  - assert (l ≠ l0) by congruence.
    split; [by rewrite lookup_insert_ne|done].
  - destruct Hsw as [Hcm Hne]. split; [by rewrite lookup_insert_ne|done].
  - destruct Hpc as (handles & Hb & Hst).
    split; [done|]. right. by exists handles.
Qed.

Lemma swap_inv_reachable s :
  rtc (step build) (initial l0 old) s → swap_inv build old l0 s.
Proof.
  intros Hrtc.
  apply (rtc_ind_r (R := step build) (swap_inv build old l0) (initial l0 old));
    [|clear s Hrtc|done].
  - apply swap_inv_initial.
  - intros s1 s2 Hrtc Hstep Hinv.
    eapply swap_inv_step; [|done|done]. by eapply registry_inv_reachable.
Qed.

(** X21. The map object of the old generation is never written during a
    refresh, not even after the swap, and until the assignment under the
    write lock the registry refers to it: the new map is filled in a
    separate object. *)
Theorem old_generation_is_never_written s :
  rtc (step build) (initial l0 old) s →
  heap s !! l0 = Some old ∧
  (holds_write_lock (writer s) = false → writer s ≠ WDone →
   ClustersMap s = l0) ∧
  (∀ l todo, writer s = WBuild l todo → l ≠ l0).
Proof.
  intros [Hold Hsw]%swap_inv_reachable. split; [done|]. split.
  - intros Hh Hnd. by destruct (writer s) as [|l todo|l|l| |]; try destruct Hsw.
  - intros l todo Hw. rewrite Hw in Hsw. by destruct Hsw.
Qed.

(** X22. Once the tick is over, the swap has taken effect and the write lock is
    free: after a build that succeeded the registry refers to the finished
    new generation, so every later lookup is served from it; after a build
    that failed it still refers to the old map object. *)
Theorem finished_tick_has_swapped s :
  rtc (step build) (initial l0 old) s →
  writer s = WDone →
  write_locked (clustersMu s) = false ∧
  match build with
  | Some handles => heap s !! ClustersMap s = Some (complete handles)
  | None => ClustersMap s = l0 ∧ heap s !! ClustersMap s = Some old
  end.
Proof.
  intros Hrtc Hw.
  pose proof (registry_inv_reachable _ _ _ _ Hrtc) as (_ & Hlock & _ & _ & _).
  pose proof (swap_inv_reachable _ Hrtc) as [Hold Hsw].
  rewrite Hw in Hlock, Hsw. split; [done|].
  destruct Hsw as [[-> Hcm]|(handles & -> & Hst)]; [|done].
  by rewrite Hcm.
Qed.

Lemma observation_step s s' (i : nat) r (g : gmap string Handle) :
  step build s s' → readers s !! i = Some r → observed r = Some g →
  ∃ r', readers s' !! i = Some r' ∧ observed r' = Some g ∧ answer r' = answer r.
Proof.
  intros Hstep Hi Hg.
  destruct Hstep as
    [s Hpc' Hb | s l todo Hpc' Hb Hfresh | s l name cluster todo g' Hpc' Hl
    | s l Hpc' | s l Hpc' Hwl Hrl | s l Hpc' | s Hpc' | s name
    | s j name Hj Hwl | s j name g' Hj Hg' | s j name g' Hj];
    cbn [readers]; eauto.
  - exists r. split; [|done]. by apply lookup_app_l_Some.
  - destruct (decide (j = i)) as [->|Hne]; [simplify_eq/=|].
    exists r. by rewrite list_lookup_insert_ne.
  - destruct (decide (j = i)) as [->|Hne]; [simplify_eq/=|].
    exists r. by rewrite list_lookup_insert_ne.
  - destruct (decide (j = i)) as [->|Hne].
    + simplify_eq/=. exists (RDone name g). split; [|done].
      apply list_lookup_insert_eq. by eapply lookup_lt_Some.
    + exists r. by rewrite list_lookup_insert_ne.
Qed.

(** X23. A request keeps the generation it has looked its name up in: whatever
    happens afterwards (the swap, other requests), it goes on with the
    handle, or the 404, of that generation. *)
Theorem observation_is_stable s s' (i : nat) r (g : gmap string Handle) :
  rtc (step build) s s' →
  readers s !! i = Some r → observed r = Some g →
  ∃ r', readers s' !! i = Some r' ∧ observed r' = Some g ∧ answer r' = answer r.
Proof.
  intros Hrtc. revert r. induction Hrtc as [s|s1 s2 s3 Hstep _ IH]; intros r Hi Hg.
  - by exists r.
  - destruct (observation_step _ _ _ _ _ Hstep Hi Hg) as (r2 & Hi2 & Hg2 & Ha2).
    destruct (IH _ Hi2 Hg2) as (r3 & Hi3 & Hg3 & Ha3). exists r3.
    split; [done|]. split; [done|]. congruence.
Qed.

Lemma read_holders_pos (rs : list (reader_pc Handle)) (i : nat) r :
  rs !! i = Some r → holds_read_lock r = true → 0 < read_holders rs.
Proof.
  revert i. induction rs as [|r0 rs IH]; intros [|i] Hi Hr; simplify_eq/=.
  - rewrite read_holders_cons. unfold lock_weight. rewrite Hr. lia.
  - rewrite read_holders_cons. specialize (IH _ Hi Hr). lia.
Qed.

(** X24. Every unlock finds the lock held: a request about to call [RUnlock]
    is counted among the read locks, and the refresh goroutine about to call
    [Unlock] holds the write lock.  The counter of read locks is the number
    of requests between their [RLock] and their [RUnlock]. *)
Theorem unlocks_are_legal s :
  rtc (step build) (initial l0 old) s →
  (∀ i name g, readers s !! i = Some (RRead name g) →
     0 < read_locks (clustersMu s)) ∧
  (writer s = WAssigned → write_locked (clustersMu s) = true) ∧
  read_locks (clustersMu s) = read_holders (readers s).
Proof.
  intros (_ & Hw & Hr & _ & _)%registry_inv_reachable. split; [|split].
  - intros i name g Hi. rewrite Hr. by eapply read_holders_pos.
  - intros Hpc. by rewrite Hw, Hpc.
  - done.
Qed.
End swap_facts.

Lemma sample_unlock : rtc (step sample_build) sample_run_end sample_run_done.
Proof. apply rtc_once. by apply (step_Unlock _ _ sample_run_end). Qed.

Lemma sample_run_finished :
  rtc (step sample_build) (initial 0 sample_old) sample_run_done.
Proof. etrans; [apply sample_run|apply sample_unlock]. Qed.

Lemma old_generation_is_never_written_witness :
  heap sample_run_done !! 0 = Some sample_old ∧
  (holds_write_lock (writer sample_run_done) = false →
   writer sample_run_done ≠ WDone → ClustersMap sample_run_done = 0) ∧
  (∀ l todo, writer sample_run_done = WBuild l todo → l ≠ 0).
Proof.
  apply (old_generation_is_never_written sample_build sample_old 0
           sample_run_done).
  exact sample_run_finished.
Defined.

Lemma finished_tick_has_swapped_witness :
  write_locked (clustersMu sample_run_done) = false ∧
  heap sample_run_done !! ClustersMap sample_run_done
    = Some (complete [("pe-b", 2)]).
Proof.
  apply (finished_tick_has_swapped sample_build sample_old 0 sample_run_done).
  - exact sample_run_finished.
  - reflexivity.
Defined.

Lemma observation_is_stable_witness :
  ∃ r', readers sample_run_done !! 0 = Some r'
        ∧ observed r' = Some sample_old
        ∧ answer r' = answer (RDone "pe-a" sample_old).
Proof.
  apply (observation_is_stable sample_build sample_run_end sample_run_done 0
           (RDone "pe-a" sample_old) sample_old).
  - exact sample_unlock.
  - reflexivity.
  - reflexivity.
Defined.

Lemma unlocks_are_legal_witness :
  (∀ i name g, readers sample_run_end !! i = Some (RRead name g) →
     0 < read_locks (clustersMu sample_run_end)) ∧
  (writer sample_run_end = WAssigned →
     write_locked (clustersMu sample_run_end) = true) ∧
  read_locks (clustersMu sample_run_end) = read_holders (readers sample_run_end).
Proof.
  apply (unlocks_are_legal sample_build sample_old 0 sample_run_end).
  exact sample_run.
Defined.
